(** * TTSstudio: the [/convert] request handler

    A shallow embedding of the conversion pipeline of the text-to-speech
    gateway: the handler registered with [app.post('/convert', ...)] in the
    current server (the one with the Edge engine) and, in [Module Legacy],
    the earlier handler kept in [server.js], which streams the audio back
    and removes it afterwards.

    The handler is an [async] function wrapped in one [try]/[catch].  It is
    modelled in a small monad that threads the world (file system, clock,
    console, the lazily loaded Edge client) and has two ways of leaving the
    body early: a thrown error and a [return res...] inside the [try].  The
    two synthesis backends and the disk are external: they are taken as
    oracles, collected in a record [env], over which every theorem
    quantifies.

    The first sections follow the request of the form of the home page:
    every field of the body is a string, the Edge package is installed,
    and a backend always answers, the callback of [gttsInstance.save]
    without an error meaning that the audio is at the path.  [Module Wide]
    is the same handler without these assumptions: fields that are arrays
    or objects, a [require] that throws, a callback that says nothing
    about the file, a backend that never answers.  The lemma
    [wide_convert_on_strings] shows that the two agree where the first
    applies. *)

From Stdlib Require Import String Ascii ZArith List Bool Lia.
From stdpp Require Import base option gmap strings pretty.

Open Scope string_scope.
Open Scope list_scope.

(** ** JavaScript values and string helpers *)

Module Js.

(** The double quote character, used inside the HTML bodies. *)
Definition dq : string := String "034"%char EmptyString.

(** A value read out of one of the voice tables.  Besides the strings the
    tables hold, an object literal answers the names it inherits from
    [Object.prototype] with the inherited member, a function or an object
    and never a string. *)
Inductive value : Type :=
| Str (s : string)
| Inherited (name : string).

Global Instance value_eq_dec : EqDecision value.
Proof. solve_decision. Defined.

(** Truthiness: of strings only the empty one is falsy; functions and
    objects are truthy. *)
Definition truthy (v : value) : bool :=
  match v with
  | Str s => negb (String.eqb s "")
  | Inherited _ => true
  end.

(** A field of [req.body]: [None] is [undefined]. *)
Definition field_truthy (o : option string) : bool :=
  match o with
  | Some s => negb (String.eqb s "")
  | None => false
  end.

(** [o || d] for a body field [o] and a string literal [d]. *)
Definition or_default (o : option string) (d : string) : string :=
  match o with
  | Some s => if String.eqb s "" then d else s
  | None => d
  end.

(** [x || y] for a table lookup [x] ([None] is [undefined]). *)
Definition or_else (x : option value) (y : value) : value :=
  match x with
  | Some v => if truthy v then v else y
  | None => y
  end.

(** The property names every object literal inherits from
    [Object.prototype] (ECMAScript, with Annex B, as Node.js has them). *)
Definition object_prototype_keys : list string :=
  [ "constructor"; "__proto__"; "hasOwnProperty"; "isPrototypeOf";
    "propertyIsEnumerable"; "toLocaleString"; "toString"; "valueOf";
    "__defineGetter__"; "__defineSetter__"; "__lookupGetter__";
    "__lookupSetter__" ].

(** [obj[key]] for an object literal whose own properties are [own]:
    own properties first, then the prototype chain. *)
Definition get (own : gmap string string) (key : string) : option value :=
  match own !! key with
  | Some v => Some (Str v)
  | None =>
      if bool_decide (key ∈ object_prototype_keys)
      then Some (Inherited key) else None
  end.

(** [String.prototype.toLowerCase], on the ASCII letters.  Strings are
    sequences of 8-bit units here; a unit above 127 is left as it is.  No
    character outside ASCII has a lower-case form among the letters of
    ["edge"], so the comparison with ['edge'] is decided as in
    JavaScript. *)
Definition lower (c : ascii) : ascii :=
  let n := nat_of_ascii c in
  if (65 <=? n)%nat && (n <=? 90)%nat then ascii_of_nat (n + 32) else c.

Fixpoint toLowerCase (s : string) : string :=
  match s with
  | EmptyString => EmptyString
  | String c s' => String (lower c) (toLowerCase s')
  end.

(** [String.prototype.trim].  A string holds the UTF-8 encoding of its
    text, and [trim] strips, at both ends, the characters ECMAScript calls
    white space and line terminators: U+0009 to U+000D, U+0020, U+00A0,
    U+1680, U+2000 to U+200A, U+2028, U+2029, U+202F, U+205F, U+3000 and
    U+FEFF, each given here by its encoding.  The server calls it in
    [/stt/save]; [/convert] does not. *)
Definition bytes (codes : list nat) : string :=
  string_of_list_ascii (map ascii_of_nat codes).

Definition white_space : list string :=
  [ bytes [9]; bytes [10]; bytes [11]; bytes [12]; bytes [13]; bytes [32];
    bytes [194; 160]; bytes [225; 154; 128];
    bytes [226; 128; 128]; bytes [226; 128; 129]; bytes [226; 128; 130];
    bytes [226; 128; 131]; bytes [226; 128; 132]; bytes [226; 128; 133];
    bytes [226; 128; 134]; bytes [226; 128; 135]; bytes [226; 128; 136];
    bytes [226; 128; 137]; bytes [226; 128; 138];
    bytes [226; 128; 168]; bytes [226; 128; 169]; bytes [226; 128; 175];
    bytes [226; 129; 159]; bytes [227; 128; 128]; bytes [239; 187; 191] ].

(** [s] without its prefix [p], when it starts with [p]. *)
Fixpoint strip (p s : string) : option string :=
  match p, s with
  | EmptyString, _ => Some s
  | String a p', String b s' => if Ascii.eqb a b then strip p' s' else None
  | String _ _, EmptyString => None
  end.

(** [s] without the first of the words [ws] it starts with. *)
Fixpoint strip_any (ws : list string) (s : string) : option string :=
  match ws with
  | [] => None
  | p :: ws' =>
      match strip p s with
      | Some rest => Some rest
      | None => strip_any ws' s
      end
  end.

(** Strip the words [ws] from the start of [s] for as long as there is
    one; each step removes a character at least, so [n] steps are enough
    for a string of [n] characters. *)
Fixpoint strip_all (ws : list string) (n : nat) (s : string) : string :=
  match n with
  | O => s
  | S n' =>
      match strip_any ws s with
      | Some rest => strip_all ws n' rest
      | None => s
      end
  end.

Definition trimStart (s : string) : string :=
  strip_all white_space (String.length s) s.

Definition trimEnd (s : string) : string :=
  String.rev (strip_all (map String.rev white_space) (String.length s) (String.rev s)).

Definition trim (s : string) : string := trimEnd (trimStart s).

(** [s.includes(sub)] *)
Fixpoint includes (s sub : string) : bool :=
  String.prefix sub s ||
  match s with
  | EmptyString => false
  | String _ s' => includes s' sub
  end.

(** [path.join(a, b)] for segments that are already normalised (no
    ["."], [".."] or doubled separators), which is how the server uses
    it. *)
Definition path_join (a b : string) : string := a +:+ "/" +:+ b.

End Js.

Import Js.

(** ** The world: files, clock, console *)

(** What the handler writes with [console.log] and [console.error]. *)
Inductive log_entry : Type :=
| LogStarting (textLength : nat) (selectedVoice gender : string)
              (voiceCode : value) (outputPath : string)
| LogUsingEdge (voice : string)
| LogEdgeSaved (outputPath : string)
| LogGttsSaveError (cause : string)
| LogGttsSaved (outputPath : string)
| LogReturning (publicUrl : string)
| LogConversionError (cause : string)
| LogSendError (cause : string)
| LogCleanupError (cause : string).

(** One call into a synthesis backend, recorded in the order of the calls. *)
Inductive invocation : Type :=
| CallGtts (text : string) (lang : value) (outputPath : string)
| CallEdge (text : string) (voice : string).

Record world : Type := World {
  files : gmap string string;      (* path to contents *)
  clock : Z;                       (* what [Date.now()] answers *)
  edgeTTS : bool;                  (* the module-level [edgeTTS] is set *)
  console : list log_entry;
  invoked : list invocation
}.

(** ** Requests and responses *)

(** [req.file], as multer's disk storage leaves it: the file is stored in
    the upload directory under [filename]. *)
Record upload : Type := Upload { filename : string }.

(** [req.body] when every field was sent once: the fields are strings
    ([None]: the field is not there).  [Wide.request] has the other
    values. *)
Record request : Type := Request {
  file : option upload;
  textInput : option string;
  engine : option string;
  voice : option string;
  gender : option string
}.

Inductive response : Type :=
| Html (status : Z) (body : string)
| Json (status : Z) (success : bool) (url fileName : string)
| SentFile (path : string) (contents : string).

Definition alert_page (message : string) : string :=
  "<script>alert(" +:+ dq +:+ message +:+ dq +:+ "); window.history.back();</script>".

Definition no_input_response : response :=
  Html 400 (alert_page "No text or file provided").

Definition error_response : response :=
  Html 500 (alert_page "Error processing your request").

(** ** The environment: backends and disk *)

(** A write that went wrong: the error, and what the write had put at the
    path by then ([None]: it had not touched the path). *)
Record failure : Type := Failure { cause : string; partial : option string }.

(** How [gttsInstance.save] ends when it calls back and the file is as
    the callback says: the audio is at the path, or the save failed.
    [Wide.save_end] has the other ends. *)
Inductive saved : Type :=
| Saved (audio : string)
| NotSaved (f : failure).

(** What the Edge client answers: the audio buffer, or the error thrown. *)
Inductive synthesized : Type :=
| Audio (data : string)
| Rejected (cause : string).

Record env : Type := Env {
  dirname : string;                                   (* [__dirname] *)
  (* [new gtts(text, lang)]: the error the constructor throws, if any *)
  gtts_new : string -> value -> option string;
  (* [gttsInstance.save(path, cb)]: what reaches [path] and [cb] *)
  gtts_save : string -> value -> string -> saved;
  (* [edgeTTS.synthesize({input, voice})] *)
  edge_synthesize : string -> string -> synthesized;
  (* [fs.promises.writeFile(path, data)]: how it fails, if it does *)
  disk_write : string -> string -> option failure;
  (* [res.sendFile(path, cb)]: the error handed to [cb], if any *)
  send_file : string -> option string
}.

Definition uploadDir (E : env) : string := path_join (dirname E) "uploads".
Definition audioDir (E : env) : string :=
  path_join (path_join (dirname E) "public") "audio".

Definition upload_path (E : env) (f : upload) : string :=
  path_join (uploadDir E) (filename f).

(** ** The handler monad *)

Inductive step (A : Type) : Type :=
| Next (a : A)                 (* go on with the next statement *)
| Throw (cause : string)       (* an exception or a rejected promise *)
| Return (r : response).       (* [return res...] inside the [try] *)
Arguments Next {A} a.
Arguments Throw {A} cause.
Arguments Return {A} r.

Definition M (A : Type) : Type := world -> step A * world.

Definition ret {A : Type} (a : A) : M A := fun w => (Next a, w).

Definition bind {A B : Type} (c : M A) (k : A -> M B) : M B :=
  fun w =>
    match c w with
    | (Next a, w') => k a w'
    | (Throw why, w') => (Throw why, w')
    | (Return r, w') => (Return r, w')
    end.

Definition throw {A : Type} (why : string) : M A := fun w => (Throw why, w).
Definition respond {A : Type} (r : response) : M A := fun w => (Return r, w).

Notation "x <- c ;; k" := (bind c (fun x => k))
  (at level 100, c at next level, right associativity).
Notation "c ;;; k" := (bind c (fun _ => k))
  (at level 100, right associativity).

(** *** Updates of the world *)

Definition with_files (fs : gmap string string) (w : world) : world :=
  World fs (clock w) (edgeTTS w) (console w) (invoked w).

Definition log (e : log_entry) : M unit :=
  fun w => (Next tt, World (files w) (clock w) (edgeTTS w) (console w ++ [e]) (invoked w)).

Definition record (c : invocation) : M unit :=
  fun w => (Next tt, World (files w) (clock w) (edgeTTS w) (console w) (invoked w ++ [c])).

Definition Date_now : M Z := fun w => (Next (clock w), w).

(** [if (!edgeTTS) edgeTTS = require('edge-tts')], the package being
    installed; [Wide.require_edgeTTS] has the [require] that throws. *)
Definition require_edgeTTS : M unit :=
  fun w => (Next tt, World (files w) (clock w) true (console w) (invoked w)).

(** *** The file system *)

(** The disk is a finite map from paths to contents, and contents are
    strings: the decoding of a file as UTF-8 is not modelled.  Reading or
    removing a path fails exactly when the path is absent.  A write, which
    the claims follow through its failures, ends as the environment
    says. *)

(** The message of Node's [ENOENT] error for a system call on [p]. *)
Definition no_entry (syscall p : string) : string :=
  "ENOENT: no such file or directory, " +:+ syscall +:+ " '" +:+ p +:+ "'".

Definition enoent (p : string) : string := no_entry "open" p.

Definition readFile (p : string) : M string :=
  fun w =>
    match files w !! p with
    | Some contents => (Next contents, w)
    | None => (Throw (enoent p), w)
    end.

Definition unlink (p : string) : M unit :=
  fun w =>
    match files w !! p with
    | Some _ => (Next tt, with_files (delete p (files w)) w)
    | None => (Throw (no_entry "unlink" p), w)
    end.

(** The path [p] now holds [data]. *)
Definition put (p data : string) : M unit :=
  fun w => (Next tt, with_files (<[p := data]> (files w)) w).

(** What a failed write leaves at [p]. *)
Definition leave (p : string) (f : failure) : M unit :=
  match partial f with
  | Some part => put p part
  | None => ret tt
  end.

Definition writeFile (E : env) (p data : string) : M unit :=
  match disk_write E p data with
  | None => put p data
  | Some f => leave p f ;;; throw (cause f)
  end.

(** ** The conversion handler *)

(** The first statement of the [try] block, the same in both servers: the
    text comes from the uploaded file, which is read and removed, or else
    from the [textInput] field; with neither, the handler answers 400. *)
Definition read_input (E : env) (req : request) : M string :=
  match file req with
  | Some f =>
      textToConvert <- readFile (upload_path E f) ;;
      unlink (upload_path E f) ;;;
      ret textToConvert
  | None =>
      match textInput req with
      | Some t => if String.eqb t "" then respond no_input_response else ret t
      | None => respond no_input_response
      end
  end.

(** The two voice tables (own properties of the object literals). *)
Definition maleVoices : gmap string string :=
  list_to_map
    [ ("en", "en-us"); ("en-uk", "en-uk"); ("en-au", "en-au");
      ("hi", "hi"); ("fr", "fr"); ("es", "es") ].

Definition femaleVoices : gmap string string :=
  list_to_map
    [ ("en", "en"); ("en-uk", "en-uk"); ("en-au", "en-au");
      ("hi", "hi"); ("fr", "fr"); ("es", "es") ].

(** "Map gender to voice variation": the value of [voiceCode] once the
    [if]/[else if] has run. *)
Definition voiceCode (selectedVoice gender : string) : value :=
  if String.eqb gender "male" then
    or_else (get maleVoices selectedVoice) (Str selectedVoice)
  else if String.eqb gender "female" then
    or_else (get femaleVoices selectedVoice) (Str selectedVoice)
  else Str selectedVoice.

Definition outputFileName (now : Z) : string :=
  "speech-" +:+ pretty now +:+ ".mp3".

(** The GTTS path: construct the job, save it to [outputPath], and wait for
    the callback. *)
Definition gtts (E : env) (text : string) (lang : value) (outputPath : string)
  : M unit :=
  record (CallGtts text lang outputPath) ;;;
  match gtts_new E text lang with
  | Some why => throw why
  | None =>
      match gtts_save E text lang outputPath with
      | Saved audio =>
          put outputPath audio ;;;
          log (LogGttsSaved outputPath)
      | NotSaved f =>
          leave outputPath f ;;;
          log (LogGttsSaveError (cause f)) ;;;
          throw (cause f)
      end
  end.

(** The Edge path: load the client on first use, synthesize into a buffer,
    write the buffer to [outputPath]. *)
Definition edge (E : env) (text : string) (rawVoice : option string)
    (outputPath : string) : M unit :=
  require_edgeTTS ;;;
  let voice := or_default rawVoice "en-US-AriaNeural" in
  log (LogUsingEdge voice) ;;;
  record (CallEdge text voice) ;;;
  match edge_synthesize E text voice with
  | Rejected why => throw why
  | Audio data =>
      writeFile E outputPath data ;;;
      log (LogEdgeSaved outputPath)
  end.

(** The [try] block from "Engine and voice" to its end. *)
Definition synthesize_and_reply (E : env) (req : request) (textToConvert : string)
  : M response :=
  let engine := toLowerCase (or_default (engine req) "gtts") in
  let selectedVoice := or_default (voice req) "en" in
  let gender := or_default (gender req) "male" in
  let voiceCode := voiceCode selectedVoice gender in
  now <- Date_now ;;
  let outputFileName := outputFileName now in
  let outputPath := path_join (audioDir E) outputFileName in
  log (LogStarting (String.length textToConvert) selectedVoice gender
         voiceCode outputPath) ;;;
  (if String.eqb engine "edge"
   then edge E textToConvert (voice req) outputPath
   else gtts E textToConvert voiceCode outputPath) ;;;
  let publicUrl := "/audio/" +:+ outputFileName in
  log (LogReturning publicUrl) ;;;
  ret (Json 200 true publicUrl outputFileName).

(** The body of the [try] block. *)
Definition convert_body (E : env) (req : request) : M response :=
  textToConvert <- read_input E req ;;
  synthesize_and_reply E req textToConvert.

(** The [catch]: log the error and answer 500 with a fixed page. *)
Definition catch (body : M response) : world -> response * world :=
  fun w =>
    match body w with
    | (Next r, w') => (r, w')
    | (Return r, w') => (r, w')
    | (Throw why, w') =>
        (error_response,
         World (files w') (clock w') (edgeTTS w')
               (console w' ++ [LogConversionError why]) (invoked w'))
    end.

Definition convert (E : env) (req : request) : world -> response * world :=
  catch (convert_body E req).

(** ** The earlier handler of [server.js] *)

Module Legacy.

Definition gtts (E : env) (text : string) (lang : value) (outputPath : string)
  : M unit :=
  record (CallGtts text lang outputPath) ;;;
  match gtts_new E text lang with
  | Some why => throw why
  | None =>
      match gtts_save E text lang outputPath with
      | Saved audio => put outputPath audio
      | NotSaved f => leave outputPath f ;;; throw (cause f)
      end
  end.

(** [res.sendFile(outputPath, cb)] together with its callback: a failed
    send is logged and answered with 500; after a good one the file is
    removed, an error of the removal being logged and dropped. *)
Definition sendFile_then_cleanup (E : env) (outputPath : string) : M response :=
  fun w =>
    match files w !! outputPath with
    | None =>
        (log (LogSendError (no_entry "stat" outputPath)) ;;;
         ret (Html 500 (alert_page "Error sending audio file"))) w
    | Some contents =>
        match send_file E outputPath with
        | Some why =>
            (log (LogSendError why) ;;;
             ret (Html 500 (alert_page "Error sending audio file"))) w
        | None =>
            match unlink outputPath w with
            | (Throw why, w') =>
                (log (LogCleanupError why) ;;;
                 ret (SentFile outputPath contents)) w'
            | (_, w') => (Next (SentFile outputPath contents), w')
            end
        end
    end.

Definition synthesize_and_send (E : env) (req : request) (textToConvert : string)
  : M response :=
  let selectedVoice := or_default (voice req) "en" in
  let gender := or_default (gender req) "male" in
  let voiceCode := voiceCode selectedVoice gender in
  now <- Date_now ;;
  let outputFileName := outputFileName now in
  let outputPath := path_join (audioDir E) outputFileName in
  gtts E textToConvert voiceCode outputPath ;;;
  sendFile_then_cleanup E outputPath.

Definition convert_body (E : env) (req : request) : M response :=
  textToConvert <- read_input E req ;;
  synthesize_and_send E req textToConvert.

Definition convert (E : env) (req : request) : world -> response * world :=
  catch (convert_body E req).

End Legacy.

(** ** Vocabulary of the statements *)

(** The test [engine === 'edge'] of the dispatch. *)
Definition engine_of (req : request) : string :=
  toLowerCase (or_default (engine req) "gtts").

(** The artifact path the handler computes when the clock shows [now]. *)
Definition outputPath (E : env) (now : Z) : string :=
  path_join (audioDir E) (outputFileName now).

(** The voice code the handler computes for a request. *)
Definition voiceCode_of (req : request) : value :=
  voiceCode (or_default (voice req) "en") (or_default (gender req) "male").

(** The paths that exist after the handler ran and did not exist before. *)
Definition created (before after : world) : gset string :=
  dom (files after) ∖ dom (files before).

Definition with_engine (e : option string) (req : request) : request :=
  Request (file req) (textInput req) e (voice req) (gender req).

(** How the synthesis of [text] for [req] goes wrong, as decided by the
    backends and the disk: the constructor of the GTTS job throws, its
    [save] reports an error, the Edge client rejects, or the write of the
    Edge buffer fails. *)
Inductive synthesis_fails (E : env) (req : request) (text : string) (now : Z)
  : failure -> Prop :=
| gtts_new_fails why :
    engine_of req ≠ "edge" ->
    gtts_new E text (voiceCode_of req) = Some why ->
    synthesis_fails E req text now (Failure why None)
| gtts_save_fails f :
    engine_of req ≠ "edge" ->
    gtts_new E text (voiceCode_of req) = None ->
    gtts_save E text (voiceCode_of req) (outputPath E now) = NotSaved f ->
    synthesis_fails E req text now f
| edge_rejects why :
    engine_of req = "edge" ->
    edge_synthesize E text (or_default (voice req) "en-US-AriaNeural") = Rejected why ->
    synthesis_fails E req text now (Failure why None)
| edge_write_fails data f :
    engine_of req = "edge" ->
    edge_synthesize E text (or_default (voice req) "en-US-AriaNeural") = Audio data ->
    disk_write E (outputPath E now) data = Some f ->
    synthesis_fails E req text now f.

(** How it goes well: the GTTS job saves [audio] to the artifact path, or
    the Edge client returns [audio] and the write of the buffer succeeds. *)
Inductive synthesis_gives (E : env) (req : request) (text : string) (now : Z)
  : string -> Prop :=
| gtts_saves audio :
    engine_of req ≠ "edge" ->
    gtts_new E text (voiceCode_of req) = None ->
    gtts_save E text (voiceCode_of req) (outputPath E now) = Saved audio ->
    synthesis_gives E req text now audio
| edge_writes audio :
    engine_of req = "edge" ->
    edge_synthesize E text (or_default (voice req) "en-US-AriaNeural") = Audio audio ->
    disk_write E (outputPath E now) audio = None ->
    synthesis_gives E req text now audio.

(** The call the dispatch makes. *)
Definition call_of (E : env) (req : request) (text : string) (now : Z) : invocation :=
  if String.eqb (engine_of req) "edge"
  then CallEdge text (or_default (voice req) "en-US-AriaNeural")
  else CallGtts text (voiceCode_of req) (outputPath E now).


(** The console entry written before the dispatch. *)
Definition starting (E : env) (req : request) (text : string) (now : Z) : log_entry :=
  LogStarting (String.length text) (or_default (voice req) "en")
    (or_default (gender req) "male") (voiceCode_of req) (outputPath E now).

(** The files a failed write leaves behind. *)
Definition left_behind (p : string) (f : failure) (fs : gmap string string)
  : gmap string string :=
  match partial f with
  | Some part => <[p := part]> fs
  | None => fs
  end.

(** The keys of the two voice tables. *)
Definition listed_keys : list string :=
  [ "en"; "en-uk"; "en-au"; "hi"; "fr"; "es" ].

(** ** Concrete backends, worlds and requests *)

Module Examples.

(** Backends that always succeed. *)
Definition backend : env :=
  {| dirname := "/srv";
     gtts_new := fun _ _ => None;
     gtts_save := fun _ _ _ => Saved "ID3-gtts";
     edge_synthesize := fun _ _ => Audio "ID3-edge";
     disk_write := fun _ _ => None;
     send_file := fun _ => None |}.

(** Backends that are unreachable; a broken GTTS download leaves an
    empty file. *)
Definition offline : env :=
  {| dirname := "/srv";
     gtts_new := fun _ _ => None;
     gtts_save := fun _ _ _ => NotSaved (Failure "getaddrinfo ENOTFOUND" (Some ""));
     edge_synthesize := fun _ _ => Rejected "socket hang up";
     disk_write := fun _ _ => None;
     send_file := fun _ => None |}.

Definition idle : world := World ∅ 1700000000000 false [] [].

Definition artifact : string := "/srv/public/audio/speech-1700000000000.mp3".

(** A world in which the artifact name of this millisecond is taken. *)
Definition taken : world :=
  World {[ artifact := "older audio" ]} 1700000000000 false [] [].

(** A world holding one upload. *)
Definition uploaded : world :=
  World {[ "/srv/uploads/1699999999999-notes.txt" := "Text of the file" ]}
        1700000000000 false [] [].

Definition hello : request :=
  Request None (Some "Hello world") (Some "gtts") (Some "en") (Some "male").

Definition blank : request :=
  Request None (Some "   ") (Some "gtts") None None.

Definition empty : request :=
  Request None (Some "") (Some "gtts") None None.

Definition shouting : request :=
  Request None (Some "Test") (Some "EDGE") (Some "en-US-AriaNeural") None.


Definition unknown_engine : request :=
  Request None (Some "Hello world") (Some "polly") (Some "en") (Some "male").

Definition neutral : request :=
  Request None (Some "Hello world") (Some "gtts") (Some "en") (Some "other").

Definition edge_test : request :=
  Request None (Some "Test") (Some "edge") (Some "en-US-AriaNeural") None.

Definition from_file : request :=
  Request (Some (Upload "1699999999999-notes.txt")) (Some "Inline text")
          (Some "gtts") (Some "en") (Some "female").

End Examples.

(** ** The rest of the server: filters, transcripts, voices *)

(** *** [path.extname]

    Node's POSIX [path.extname], as its loop is written: the path is
    scanned from its last character to its first, [startDot] and [end]
    mark the extension, [preDotState] tells what was seen before the dot.
    The path is scanned here as the list of its characters in reverse, the
    index of a character being the number of characters before it.  The
    two characters tested, the slash and the dot, are ASCII, so scanning
    8-bit units finds them where the scan of UTF-16 units does. *)

Module Path.

Record scan : Type := Scan {
  startDot : Z;
  startPart : Z;
  end_ : Z;
  matchedSlash : bool;
  preDotState : Z
}.

Definition CHAR_FORWARD_SLASH : ascii := "/"%char.
Definition CHAR_DOT : ascii := "."%char.

Fixpoint extname_loop (reversed : list ascii) (st : scan) : scan :=
  match reversed with
  | [] => st
  | code :: before =>
      let i := Z.of_nat (length before) in
      if Ascii.eqb code CHAR_FORWARD_SLASH then
        if negb (matchedSlash st)
        then Scan (startDot st) (i + 1) (end_ st) (matchedSlash st) (preDotState st)
        else extname_loop before st
      else
        let st1 :=
          if (end_ st =? -1)%Z
          then Scan (startDot st) (startPart st) (i + 1) false (preDotState st)
          else st in
        let st2 :=
          if Ascii.eqb code CHAR_DOT then
            if (startDot st1 =? -1)%Z
            then Scan i (startPart st1) (end_ st1) (matchedSlash st1) (preDotState st1)
            else if negb (preDotState st1 =? 1)%Z
            then Scan (startDot st1) (startPart st1) (end_ st1) (matchedSlash st1) 1
            else st1
          else if negb (startDot st1 =? -1)%Z
          then Scan (startDot st1) (startPart st1) (end_ st1) (matchedSlash st1) (-1)
          else st1 in
        extname_loop before st2
  end.

Definition extname (path : string) : string :=
  let st := extname_loop (rev (list_ascii_of_string path)) (Scan (-1) 0 (-1) true 0) in
  if (startDot st =? -1)%Z
     || (end_ st =? -1)%Z
     || (preDotState st =? 0)%Z
     || ((preDotState st =? 1)%Z
         && (startDot st =? end_ st - 1)%Z
         && (startDot st =? startPart st + 1)%Z)
  then ""
  else String.substring (Z.to_nat (startDot st))
                        (Z.to_nat (end_ st - startDot st)) path.

End Path.

(** *** The two upload filters and the storage name *)

(** The [fileFilter] of [upload]: the error handed to [cb], if any. *)
Definition upload_fileFilter (originalname : string) : option string :=
  if String.eqb (toLowerCase (Path.extname originalname)) ".txt"
  then None
  else Some "Only .txt files are allowed".

Definition allowed : list string := [ ".mp3"; ".wav"; ".m4a"; ".ogg"; ".webm" ].

(** The [fileFilter] of [audioUpload]. *)
Definition audioUpload_fileFilter (originalname : string) : option string :=
  let ext := toLowerCase (Path.extname originalname) in
  if bool_decide (ext ∈ allowed)
  then None
  else Some "Only audio files are allowed".

(** The [filename] of the disk storage. *)
Definition storage_filename (now : Z) (originalname : string) : string :=
  pretty now +:+ "-" +:+ originalname.

(** *** Values of a parsed body or query

    [express.urlencoded({extended: true})], the query parser and multer
    leave a string under a name sent once, and an array or an object under
    a name sent several times or with brackets.  Of such a composite value
    the server uses that it is truthy, that it is no string, and, when the
    value serves as a property name, the string it converts to ([key];
    [None] when the conversion throws, the value being an object without
    [toString]). *)

Module Parsed.

Inductive body_value : Type :=
| Text (s : string)
| Composite (key : option string).

(** The errors the handlers can meet. *)
Inductive error : Type :=
| Reported (message : string)   (* from a backend, the disk or [require] *)
| NotAFunction (method : string)  (* TypeError: a string method of a composite *)
| NoPrimitive.                  (* TypeError: a composite without [toString] as a key *)

Definition truthy (v : body_value) : bool :=
  match v with
  | Text s => negb (String.eqb s "")
  | Composite _ => true
  end.

(** [o || d] for a field [o] ([None] is [undefined]) and a literal [d]. *)
Definition or_default (o : option body_value) (d : string) : body_value :=
  match o with
  | Some v => if truthy v then v else Text d
  | None => Text d
  end.

(** [v.toLowerCase()] *)
Definition lower (v : body_value) : error + string :=
  match v with
  | Text s => inr (toLowerCase s)
  | Composite _ => inl (NotAFunction "toLowerCase")
  end.

(** The property name [v] stands for in [table[v]]. *)
Definition property_key (v : body_value) : error + string :=
  match v with
  | Text s => inr s
  | Composite (Some key) => inr key
  | Composite None => inl NoPrimitive
  end.

(** A string that holds ASCII characters only. *)
Fixpoint is_ascii (s : string) : bool :=
  match s with
  | EmptyString => true
  | String c s' => (nat_of_ascii c <? 128)%nat && is_ascii s'
  end.

End Parsed.

(** *** The endpoints beside [/convert] *)

Module Aux.

(** A value found in a JSON body, as far as the server looks at it: a
    string, or any other value, of which only the truthiness and the text
    [String(...)] makes of it are used. *)
Inductive field : Type :=
| FString (s : string)
| FOther (truthy : bool) (shown : string).

Definition is_truthy (v : field) : bool :=
  match v with
  | FString s => negb (String.eqb s "")
  | FOther t _ => t
  end.

(** [String(v)] *)
Definition to_String (v : field) : string :=
  match v with
  | FString s => s
  | FOther _ shown => shown
  end.

(** What these endpoints answer. *)
Inductive reply : Type :=
| Stored (url fileName : string)            (* [{success: true, url, fileName}] *)
| Refused (status : Z) (error : string)     (* [res.status(...).json({error})] *)
| VoiceList (engine : string) (voices : list string)
| Escapes (e : Parsed.error)    (* no answer: the error leaves the handler *)
| Silent.                       (* no answer: an awaited promise never settles *)

(** What they write with [console.error]. *)
Inductive note : Type :=
| SttSaveError (why : string)
| SttUploadError (why : string)
| VoicesError (why : string).

(** What the Edge client answers to [listVoices]. *)
Inductive listed : Type :=
| Catalog (voices : list string)
| NotListed (why : string)
| NeverListed.

(** The environment of these endpoints: that of [/convert], the directory
    creation and the voice catalog. *)
Record host : Type := Host {
  base : env;
  (* [fs.promises.mkdir(path, {recursive: true})]: how it fails, if it does *)
  mkdir_fails : string -> option string;
  (* [edgeTTS.listVoices()] *)
  listVoices : listed;
  (* [require('edge-tts')]: the error it throws, if it does *)
  client_missing : option string
}.

(** The bodies of these handlers have no early exit besides the first
    test: they go on or throw. *)
Inductive result (A : Type) : Type :=
| Ok (a : A)
| Raised (why : string).
Arguments Ok {A} a.
Arguments Raised {A} why.

Definition T (A : Type) : Type := world -> result A * world.

Definition pure {A : Type} (a : A) : T A := fun w => (Ok a, w).

Definition and_then {A B : Type} (c : T A) (k : A -> T B) : T B :=
  fun w =>
    match c w with
    | (Ok a, w') => k a w'
    | (Raised why, w') => (Raised why, w')
    end.

Definition raise {A : Type} (why : string) : T A := fun w => (Raised why, w).

Notation "x <~ c ;; k" := (and_then c (fun x => k))
  (at level 100, c at next level, right associativity).
Notation "c ~> k" := (and_then c (fun _ => k))
  (at level 100, right associativity).

Definition now : T Z := fun w => (Ok (clock w), w).

Definition mkdir (H : host) (p : string) : T unit :=
  match mkdir_fails H p with
  | Some why => raise why
  | None => pure tt
  end.

(** [fs.promises.writeFile(p, data, 'utf-8')], on the disk of [/convert]. *)
Definition write (H : host) (p data : string) : T unit :=
  fun w =>
    match disk_write (base H) p data with
    | None => (Ok tt, with_files (<[p := data]> (files w)) w)
    | Some f => (Raised (cause f), with_files (left_behind p f (files w)) w)
    end.

(** The [catch] of these handlers: one console line, one fixed answer. *)
Definition caught (label : string -> note) (error : string) (body : T reply)
  : world -> reply * list note * world :=
  fun w =>
    match body w with
    | (Ok r, w') => (r, [], w')
    | (Raised why, w') => (Refused 500 error, [label why], w')
    end.

(** [req.body && req.body.text ? String(req.body.text) : '']; [body] is
    [req.body], [None] when it is not set, and holds the [text] property,
    [None] when it has none. *)
Definition body_text (body : option (option field)) : string :=
  match body with
  | Some (Some v) => if is_truthy v then to_String v else ""
  | _ => ""
  end.

(** [app.post('/stt/save', ...)] *)
Definition stt_save (H : host) (body : option (option field))
  : world -> reply * list note * world :=
  caught SttSaveError "Failed to save transcript"
    (let text := trim (body_text body) in
     if String.eqb text "" then pure (Refused 400 "No text provided")
     else
       t <~ now ;;
       let fileName := "transcript-" +:+ pretty t +:+ ".txt" in
       let outputPath := path_join (uploadDir (base H)) fileName in
       mkdir H (uploadDir (base H)) ~>
       write H outputPath text ~>
       let publicUrl := "/uploads/" +:+ fileName in
       pure (Stored publicUrl fileName)).

(** [app.post('/stt/upload', ...)], once [audioUpload] has stored the
    file. *)
Definition stt_upload (file : option upload)
  : world -> reply * list note * world :=
  caught SttUploadError "Failed to upload audio"
    (match file with
     | None => pure (Refused 400 "No audio file uploaded")
     | Some f =>
         let fileName := filename f in
         let publicUrl := "/uploads/" +:+ fileName in
         pure (Stored publicUrl fileName)
     end).

(** [if (!edgeTTS) edgeTTS = require('edge-tts')] *)
Definition require_client (H : host) : T unit :=
  fun w =>
    if edgeTTS w then (Ok tt, w)
    else
      match client_missing H with
      | Some why => (Raised why, w)
      | None => (Ok tt, World (files w) (clock w) true (console w) (invoked w))
      end.

(** [app.get('/voices', ...)]; [engine] is [req.query.engine].  The first
    statement stands before the [try]: what it throws leaves the handler.
    The engine word is sent back as it is; [toLowerCase] is exact on ASCII
    strings. *)
Definition voices (H : host) (engine : option Parsed.body_value)
  : world -> reply * list note * world :=
  fun w =>
    match Parsed.lower (Parsed.or_default engine "edge") with
    | inl e => (Escapes e, [], w)
    | inr engine =>
        if String.eqb engine "edge" then
          match require_client H w with
          | (Raised why, w') =>
              (Refused 500 "Failed to list voices", [VoicesError why], w')
          | (Ok _, w') =>
              match listVoices H with
              | Catalog result => (VoiceList "edge" result, [], w')
              | NotListed why =>
                  (Refused 500 "Failed to list voices", [VoicesError why], w')
              | NeverListed => (Silent, [], w')
              end
          end
        else (VoiceList engine [], [], w)
    end.

(** The error-handling middleware at the end of the chain. *)
Definition error_handler (message : string) : reply :=
  Refused 500 (if String.eqb message "" then "Internal server error" else message).

End Aux.

(** ** [/convert] on any parsed body and any backend

    The handler once more, with nothing taken for granted: the fields of
    the body are strings or composites, [require('edge-tts')] can throw,
    the callback of [gttsInstance.save] says nothing about the file, and a
    backend may never answer, in which case the handler never answers
    either.  On string fields, with a client that loads and backends that
    always answer, it is the handler of the sections above. *)

Module Wide.
Import Parsed.

(** What reaches a backend as voice code: a value of the body, or a member
    inherited from [Object.prototype] found by the table lookup. *)
Inductive jsval : Type :=
| Given (v : body_value)
| Member (name : string).

Definition of_value (v : value) : jsval :=
  match v with
  | Str s => Given (Text s)
  | Inherited name => Member name
  end.

Record request : Type := Request {
  file : option upload;
  textInput : option body_value;
  engine : option body_value;
  voice : option body_value;
  gender : option body_value
}.

(** The console.  The first line shows the values themselves; its text is
    determined by them. *)
Inductive entry : Type :=
| Starting (textToConvert selectedVoice gender : body_value) (voiceCode : jsval)
           (outputPath : string)
| UsingEdge (voice : body_value)
| EdgeSaved (outputPath : string)
| GttsSaveError (err : string)
| GttsSaved (outputPath : string)
| Returning (publicUrl : string)
| ConversionError (e : error).

Inductive call : Type :=
| Gtts (text : body_value) (lang : jsval) (outputPath : string)
| Edge (text voice : body_value).

Record world : Type := World {
  files : gmap string string;
  clock : Z;
  edgeTTS : bool;
  console : list entry;
  invoked : list call
}.

(** How [gttsInstance.save(path, cb)] ends: it calls back, with an error
    or without, or it never does; [remains] is what it has put at the path
    ([None]: it has not touched it). *)
Inductive save_end : Type :=
| CalledBack (err : option string) (remains : option string)
| NoCallback (remains : option string).

(** How [edgeTTS.synthesize] ends. *)
Inductive synth_end : Type :=
| Buffer (data : string)
| Rejects (why : string)
| NeverSettles.

Record env : Type := Env {
  dirname : string;
  (* [require('edge-tts')]: the error it throws, if it does *)
  require_fails : option string;
  gtts_new : body_value -> jsval -> option string;
  gtts_save : body_value -> jsval -> string -> save_end;
  edge_synthesize : body_value -> body_value -> synth_end;
  disk_write : string -> string -> option failure
}.

Definition uploadDir (E : env) : string := path_join (dirname E) "uploads".
Definition audioDir (E : env) : string :=
  path_join (path_join (dirname E) "public") "audio".
Definition upload_path (E : env) (f : upload) : string :=
  path_join (uploadDir E) (filename f).
Definition outputPath (E : env) (now : Z) : string :=
  path_join (audioDir E) (outputFileName now).

(** What the caller gets. *)
Inductive answer : Type :=
| Answered (r : response)
| Unanswered.

(** *** The monad *)

Inductive step (A : Type) : Type :=
| Next (a : A)
| Throw (e : error)
| Return (r : response)
| Pending.                      (* an awaited promise never settles *)
Arguments Next {A} a.
Arguments Throw {A} e.
Arguments Return {A} r.
Arguments Pending {A}.

Definition M (A : Type) : Type := world -> step A * world.

Definition ret {A : Type} (a : A) : M A := fun w => (Next a, w).

Definition bind {A B : Type} (c : M A) (k : A -> M B) : M B :=
  fun w =>
    match c w with
    | (Next a, w') => k a w'
    | (Throw e, w') => (Throw e, w')
    | (Return r, w') => (Return r, w')
    | (Pending, w') => (Pending, w')
    end.

Definition throw {A : Type} (e : error) : M A := fun w => (Throw e, w).
Definition respond {A : Type} (r : response) : M A := fun w => (Return r, w).
Definition pending {A : Type} : M A := fun w => (Pending, w).

(** A step that throws or gives a value without touching the world. *)
Definition try_ {A : Type} (x : error + A) : M A :=
  match x with
  | inl e => throw e
  | inr a => ret a
  end.

Local Notation "x <-- c ;; k" := (bind c (fun x => k))
  (at level 100, c at next level, right associativity).
Local Notation "c >>> k" := (bind c (fun _ => k))
  (at level 100, right associativity).

Definition with_files (fs : gmap string string) (w : world) : world :=
  World fs (clock w) (edgeTTS w) (console w) (invoked w).

Definition log (e : entry) : M unit :=
  fun w => (Next tt, World (files w) (clock w) (edgeTTS w) (console w ++ [e]) (invoked w)).

Definition record (c : call) : M unit :=
  fun w => (Next tt, World (files w) (clock w) (edgeTTS w) (console w) (invoked w ++ [c])).

Definition Date_now : M Z := fun w => (Next (clock w), w).

(** [if (!edgeTTS) edgeTTS = require('edge-tts')] *)
Definition require_edgeTTS (E : env) : M unit :=
  fun w =>
    if edgeTTS w then (Next tt, w)
    else
      match require_fails E with
      | Some why => (Throw (Reported why), w)
      | None => (Next tt, World (files w) (clock w) true (console w) (invoked w))
      end.

Definition readFile (p : string) : M string :=
  fun w =>
    match files w !! p with
    | Some contents => (Next contents, w)
    | None => (Throw (Reported (no_entry "open" p)), w)
    end.

Definition unlink (p : string) : M unit :=
  fun w =>
    match files w !! p with
    | Some _ => (Next tt, with_files (delete p (files w)) w)
    | None => (Throw (Reported (no_entry "unlink" p)), w)
    end.

(** The path [p] holds [remains] from now on, if [remains] is something. *)
Definition leave (p : string) (remains : option string) : M unit :=
  fun w =>
    match remains with
    | Some data => (Next tt, with_files (<[p := data]> (files w)) w)
    | None => (Next tt, w)
    end.

Definition writeFile (E : env) (p data : string) : M unit :=
  match disk_write E p data with
  | None => leave p (Some data)
  | Some f => leave p (partial f) >>> throw (Reported (cause f))
  end.

(** *** The handler *)

Definition read_input (E : env) (req : request) : M body_value :=
  match file req with
  | Some f =>
      textToConvert <-- readFile (upload_path E f) ;;
      unlink (upload_path E f) >>>
      ret (Text textToConvert)
  | None =>
      match textInput req with
      | Some v => if truthy v then ret v else respond no_input_response
      | None => respond no_input_response
      end
  end.

(** [table[selectedVoice] || selectedVoice]; the conversion of a composite
    to a property name may throw. *)
Definition lookup_or_self (table : gmap string string) (selectedVoice : body_value)
  : error + jsval :=
  match property_key selectedVoice with
  | inl e => inl e
  | inr key =>
      inr (match get table key with
           | Some v => if Js.truthy v then of_value v else Given selectedVoice
           | None => Given selectedVoice
           end)
  end.

(** "Map gender to voice variation"; [===] holds of strings only. *)
Definition voiceCode (selectedVoice gender : body_value) : error + jsval :=
  match gender with
  | Text g =>
      if String.eqb g "male" then lookup_or_self maleVoices selectedVoice
      else if String.eqb g "female" then lookup_or_self femaleVoices selectedVoice
      else inr (Given selectedVoice)
  | Composite _ => inr (Given selectedVoice)
  end.

Definition gtts (E : env) (text : body_value) (lang : jsval) (outputPath : string)
  : M unit :=
  record (Gtts text lang outputPath) >>>
  match gtts_new E text lang with
  | Some why => throw (Reported why)
  | None =>
      match gtts_save E text lang outputPath with
      | CalledBack None remains =>
          leave outputPath remains >>>
          log (GttsSaved outputPath)
      | CalledBack (Some err) remains =>
          leave outputPath remains >>>
          log (GttsSaveError err) >>>
          throw (Reported err)
      | NoCallback remains =>
          leave outputPath remains >>>
          pending
      end
  end.

Definition edge (E : env) (text : body_value) (rawVoice : option body_value)
    (outputPath : string) : M unit :=
  require_edgeTTS E >>>
  let voice := or_default rawVoice "en-US-AriaNeural" in
  log (UsingEdge voice) >>>
  record (Edge text voice) >>>
  match edge_synthesize E text voice with
  | Buffer data =>
      writeFile E outputPath data >>>
      log (EdgeSaved outputPath)
  | Rejects why => throw (Reported why)
  | NeverSettles => pending
  end.

Definition synthesize_and_reply (E : env) (req : request) (textToConvert : body_value)
  : M response :=
  engine <-- try_ (lower (or_default (engine req) "gtts")) ;;
  let selectedVoice := or_default (voice req) "en" in
  let gender := or_default (gender req) "male" in
  voiceCode <-- try_ (voiceCode selectedVoice gender) ;;
  now <-- Date_now ;;
  let outputFileName := outputFileName now in
  let outputPath := path_join (audioDir E) outputFileName in
  log (Starting textToConvert selectedVoice gender voiceCode outputPath) >>>
  (if String.eqb engine "edge"
   then edge E textToConvert (voice req) outputPath
   else gtts E textToConvert voiceCode outputPath) >>>
  let publicUrl := "/audio/" +:+ outputFileName in
  log (Returning publicUrl) >>>
  ret (Json 200 true publicUrl outputFileName).

Definition convert_body (E : env) (req : request) : M response :=
  textToConvert <-- read_input E req ;;
  synthesize_and_reply E req textToConvert.

Definition catch (body : M response) : world -> answer * world :=
  fun w =>
    match body w with
    | (Next r, w') => (Answered r, w')
    | (Return r, w') => (Answered r, w')
    | (Throw e, w') =>
        (Answered error_response,
         World (files w') (clock w') (edgeTTS w')
               (console w' ++ [ConversionError e]) (invoked w'))
    | (Pending, w') => (Unanswered, w')
    end.

Definition convert (E : env) (req : request) : world -> answer * world :=
  catch (convert_body E req).

(** *** Vocabulary *)

Definition with_engine (e : option body_value) (req : request) : request :=
  Request (file req) (textInput req) e (voice req) (gender req).

(** The engine word and the voice code of a request, or the error met on
    the way to them. *)
Definition engine_word (req : request) : error + string :=
  lower (or_default (engine req) "gtts").

Definition voiceCode_of (req : request) : error + jsval :=
  voiceCode (or_default (voice req) "en") (or_default (gender req) "male").

Definition edge_voice (req : request) : body_value :=
  or_default (voice req) "en-US-AriaNeural".

(** The runs that have the text, sorted by their end, as the body, the
    client and the backends decide it.  [was] tells whether the Edge
    client was loaded before; [remains] is what the run puts at the
    artifact path ([None]: it does not touch it). *)
Inductive succeeds (E : env) (req : request) (text : body_value) (now : Z) (was : bool)
  : option string -> Prop :=
| edge_writes code data :
    engine_word req = inr "edge" -> voiceCode_of req = inr code ->
    was = true \/ require_fails E = None ->
    edge_synthesize E text (edge_voice req) = Buffer data ->
    disk_write E (outputPath E now) data = None ->
    succeeds E req text now was (Some data)
| gtts_calls_back word code remains :
    engine_word req = inr word -> word <> "edge" -> voiceCode_of req = inr code ->
    gtts_new E text code = None ->
    gtts_save E text code (outputPath E now) = CalledBack None remains ->
    succeeds E req text now was remains.

Inductive fails (E : env) (req : request) (text : body_value) (now : Z) (was : bool)
  : error -> option string -> Prop :=
| engine_not_a_string e :
    engine_word req = inl e ->
    fails E req text now was e None
| voice_without_key word e :
    engine_word req = inr word -> voiceCode_of req = inl e ->
    fails E req text now was e None
| client_not_loaded code why :
    engine_word req = inr "edge" -> voiceCode_of req = inr code ->
    was = false -> require_fails E = Some why ->
    fails E req text now was (Reported why) None
| edge_rejects code why :
    engine_word req = inr "edge" -> voiceCode_of req = inr code ->
    was = true \/ require_fails E = None ->
    edge_synthesize E text (edge_voice req) = Rejects why ->
    fails E req text now was (Reported why) None
| edge_write_fails code data f :
    engine_word req = inr "edge" -> voiceCode_of req = inr code ->
    was = true \/ require_fails E = None ->
    edge_synthesize E text (edge_voice req) = Buffer data ->
    disk_write E (outputPath E now) data = Some f ->
    fails E req text now was (Reported (cause f)) (partial f)
| gtts_new_fails word code why :
    engine_word req = inr word -> word <> "edge" -> voiceCode_of req = inr code ->
    gtts_new E text code = Some why ->
    fails E req text now was (Reported why) None
| gtts_save_fails word code err remains :
    engine_word req = inr word -> word <> "edge" -> voiceCode_of req = inr code ->
    gtts_new E text code = None ->
    gtts_save E text code (outputPath E now) = CalledBack (Some err) remains ->
    fails E req text now was (Reported err) remains.

Inductive hangs (E : env) (req : request) (text : body_value) (now : Z) (was : bool)
  : option string -> Prop :=
| edge_never_settles code :
    engine_word req = inr "edge" -> voiceCode_of req = inr code ->
    was = true \/ require_fails E = None ->
    edge_synthesize E text (edge_voice req) = NeverSettles ->
    hangs E req text now was None
| gtts_never_calls_back word code remains :
    engine_word req = inr word -> word <> "edge" -> voiceCode_of req = inr code ->
    gtts_new E text code = None ->
    gtts_save E text code (outputPath E now) = NoCallback remains ->
    hangs E req text now was remains.

(** The disk once [remains] is at [p]. *)
Definition left_at (p : string) (remains : option string) (fs : gmap string string)
  : gmap string string :=
  match remains with
  | Some data => <[p := data]> fs
  | None => fs
  end.

End Wide.

(** Backends, worlds and requests for the handler on any body. *)
Module Any.
Import Parsed.

Definition backend : Wide.env :=
  {| Wide.dirname := "/srv";
     Wide.require_fails := None;
     Wide.gtts_new := fun _ _ => None;
     Wide.gtts_save := fun _ _ _ => Wide.CalledBack None (Some "ID3-gtts");
     Wide.edge_synthesize := fun _ _ => Wide.Buffer "ID3-edge";
     Wide.disk_write := fun _ _ => None |}.

(** A GTTS library that calls back without an error and without a file. *)
Definition careless : Wide.env :=
  {| Wide.dirname := "/srv";
     Wide.require_fails := None;
     Wide.gtts_new := fun _ _ => None;
     Wide.gtts_save := fun _ _ _ => Wide.CalledBack None None;
     Wide.edge_synthesize := fun _ _ => Wide.Buffer "ID3-edge";
     Wide.disk_write := fun _ _ => None |}.

(** No network: the GTTS job never calls back and leaves an empty file,
    the Edge client rejects. *)
Definition offline : Wide.env :=
  {| Wide.dirname := "/srv";
     Wide.require_fails := None;
     Wide.gtts_new := fun _ _ => None;
     Wide.gtts_save := fun _ _ _ => Wide.NoCallback (Some "");
     Wide.edge_synthesize := fun _ _ => Wide.Rejects "socket hang up";
     Wide.disk_write := fun _ _ => None |}.

(** The Edge package is not installed. *)
Definition uninstalled : Wide.env :=
  {| Wide.dirname := "/srv";
     Wide.require_fails := Some "Cannot find module 'edge-tts'";
     Wide.gtts_new := fun _ _ => None;
     Wide.gtts_save := fun _ _ _ => Wide.CalledBack None (Some "ID3-gtts");
     Wide.edge_synthesize := fun _ _ => Wide.Buffer "ID3-edge";
     Wide.disk_write := fun _ _ => None |}.

Definition idle : Wide.world := Wide.World ∅ 1700000000000 false [] [].

Definition artifact : string := "/srv/public/audio/speech-1700000000000.mp3".

Definition taken : Wide.world :=
  Wide.World {[ artifact := "older audio" ]} 1700000000000 false [] [].

Definition hello : Wide.request :=
  Wide.Request None (Some (Text "Hello world")) (Some (Text "gtts"))
               (Some (Text "en")) (Some (Text "male")).

Definition unknown_engine : Wide.request :=
  Wide.Request None (Some (Text "Hello world")) (Some (Text "polly"))
               (Some (Text "en")) (Some (Text "male")).

(** [engine=gtts&engine=edge]: the field is an array. *)
Definition engine_twice : Wide.request :=
  Wide.Request None (Some (Text "Hello world")) (Some (Composite (Some "gtts,edge")))
               (Some (Text "en")) (Some (Text "male")).

Definition shouting : Wide.request :=
  Wide.Request None (Some (Text "Test")) (Some (Text "EDGE"))
               (Some (Text "en-US-AriaNeural")) None.

Definition edge_test : Wide.request :=
  Wide.Request None (Some (Text "Test")) (Some (Text "edge"))
               (Some (Text "en-US-AriaNeural")) None.

Definition empty : Wide.request :=
  Wide.Request None (Some (Text "")) (Some (Text "gtts")) None None.

(** A text that is truthy and has nothing to say. *)
Definition blank : Wide.request :=
  Wide.Request None (Some (Text " ")) (Some (Text "gtts")) None None.

Definition from_file : Wide.request :=
  Wide.Request (Some (Upload "1699999999999-notes.txt")) (Some (Text "Inline text"))
               (Some (Text "gtts")) (Some (Text "en")) (Some (Text "male")).

Definition uploaded : Wide.world :=
  Wide.World {[ "/srv/uploads/1699999999999-notes.txt" := "Text of the file";
                "/srv/uploads/transcript-1.txt" := "kept" ]}
             1700000000000 false [] [].

End Any.

(** *** The handler of the first sections inside the general one

    A request of strings, a backend that always answers and a client that
    always loads, seen as a request, a backend and a world of the general
    handler. *)

Definition text_of (v : Parsed.body_value) : string :=
  match v with
  | Parsed.Text s => s
  | Parsed.Composite _ => ""
  end.

Definition value_of (c : Wide.jsval) : value :=
  match c with
  | Wide.Given v => Str (text_of v)
  | Wide.Member name => Inherited name
  end.

Definition widen_request (req : request) : Wide.request :=
  Wide.Request (file req)
    (option_map Parsed.Text (textInput req))
    (option_map Parsed.Text (engine req))
    (option_map Parsed.Text (voice req))
    (option_map Parsed.Text (gender req)).

Definition widen_env (E : env) : Wide.env :=
  {| Wide.dirname := dirname E;
     Wide.require_fails := None;
     Wide.gtts_new := fun text lang => gtts_new E (text_of text) (value_of lang);
     Wide.gtts_save := fun text lang p =>
       match gtts_save E (text_of text) (value_of lang) p with
       | Saved audio => Wide.CalledBack None (Some audio)
       | NotSaved f => Wide.CalledBack (Some (cause f)) (partial f)
       end;
     Wide.edge_synthesize := fun text voice =>
       match edge_synthesize E (text_of text) (text_of voice) with
       | Audio data => Wide.Buffer data
       | Rejected why => Wide.Rejects why
       end;
     Wide.disk_write := disk_write E |}.

Definition widen_call (c : invocation) : Wide.call :=
  match c with
  | CallGtts text lang p => Wide.Gtts (Parsed.Text text) (Wide.of_value lang) p
  | CallEdge text voice => Wide.Edge (Parsed.Text text) (Parsed.Text voice)
  end.

(** The world [w] with the console [lines]. *)
Definition widen_world (lines : list Wide.entry) (w : world) : Wide.world :=
  Wide.World (files w) (clock w) (edgeTTS w) lines (map widen_call (invoked w)).

(** *** Vocabulary of the further statements *)

Definition no_dot (c : ascii) : Prop := Ascii.eqb c Path.CHAR_DOT = false.
Definition no_slash (c : ascii) : Prop := Ascii.eqb c Path.CHAR_FORWARD_SLASH = false.

(** An extension without the dot: no dot and no slash in it. *)
Fixpoint plain (e : string) : bool :=
  match e with
  | EmptyString => true
  | String c e' =>
      negb (Ascii.eqb c Path.CHAR_FORWARD_SLASH) && negb (Ascii.eqb c Path.CHAR_DOT)
      && plain e'
  end.

(** The same world a while later: the clock shows [t]. *)
Definition at_time (t : Z) (w : world) : world :=
  World (files w) t (edgeTTS w) (console w) (invoked w).

(** The transcript path [/stt/save] computes when the clock shows [now]. *)
Definition transcript_name (now : Z) : string :=
  "transcript-" +:+ pretty now +:+ ".txt".

(** More backends, worlds and requests. *)
Module More.

Definition host : Aux.host :=
  {| Aux.base := Examples.backend;
     Aux.mkdir_fails := fun _ => None;
     Aux.listVoices := Aux.Catalog ["en-US-AriaNeural"; "en-GB-SoniaNeural"];
     Aux.client_missing := None |}.

Definition full_disk : Aux.host :=
  {| Aux.base :=
       {| dirname := "/srv";
          gtts_new := fun _ _ => None;
          gtts_save := fun _ _ _ => Saved "ID3-gtts";
          edge_synthesize := fun _ _ => Audio "ID3-edge";
          disk_write := fun _ _ => Some (Failure "ENOSPC: no space left on device" (Some ""));
          send_file := fun _ => None |};
     Aux.mkdir_fails := fun _ => None;
     Aux.listVoices := Aux.NotListed "socket hang up";
     Aux.client_missing := None |}.

(** A host without the Edge package, and one whose client never answers. *)
Definition bare : Aux.host :=
  {| Aux.base := Examples.backend;
     Aux.mkdir_fails := fun _ => None;
     Aux.listVoices := Aux.Catalog [];
     Aux.client_missing := Some "Cannot find module 'edge-tts'" |}.

Definition stalled : Aux.host :=
  {| Aux.base := Examples.backend;
     Aux.mkdir_fails := fun _ => None;
     Aux.listVoices := Aux.NeverListed;
     Aux.client_missing := None |}.

(** The client went away while the audio was streamed. *)
Definition aborted : env :=
  {| dirname := "/srv";
     gtts_new := fun _ _ => None;
     gtts_save := fun _ _ _ => Saved "ID3-gtts";
     edge_synthesize := fun _ _ => Audio "ID3-edge";
     disk_write := fun _ _ => None;
     send_file := fun _ => Some "Request aborted" |}.

Definition missing_upload : request :=
  Request (Some (Upload "1699999999999-gone.txt")) (Some "Inline text")
          (Some "gtts") (Some "en") (Some "male").


End More.

(** ** Basic facts *)

Lemma append_assoc (a b c : string) : (a +:+ b) +:+ c = a +:+ (b +:+ c).
Proof.
  induction a as [|x a IH]; [reflexivity |].
  change (String x ((a +:+ b) +:+ c) = String x (a +:+ (b +:+ c))).
  f_equal; exact IH.
Qed.

Section Paths.
Variable E : env.

Lemma upload_path_unfold f :
  upload_path E f = dirname E +:+ "/uploads/" +:+ filename f.
Proof.
  unfold upload_path, uploadDir, path_join.
  now rewrite append_assoc.
Qed.

Lemma artifact_path_unfold name :
  path_join (audioDir E) name = dirname E +:+ "/public/audio/" +:+ name.
Proof.
  unfold audioDir, path_join.
  now rewrite !append_assoc.
Qed.

(** The upload directory and the audio directory share no path. *)
Lemma upload_not_artifact f name :
  upload_path E f ≠ path_join (audioDir E) name.
Proof.
  rewrite upload_path_unfold, artifact_path_unfold.
  intros H. apply String.app_inj in H.
  cbv [String.append] in H. discriminate H.
Qed.

(** Two artifact names give two paths. *)
Lemma artifact_path_inj name1 name2 :
  path_join (audioDir E) name1 = path_join (audioDir E) name2 -> name1 = name2.
Proof.
  unfold path_join. intros H.
  apply String.app_inj in H.
  cbv [String.append] in H. now injection H.
Qed.
End Paths.

(** *** Running the handler step by step *)

Ltac run :=
  unfold convert, Legacy.convert, catch, convert_body, Legacy.convert_body,
    synthesize_and_reply, Legacy.synthesize_and_send,
    Legacy.sendFile_then_cleanup, gtts, Legacy.gtts, edge,
    writeFile, leave, put, unlink, readFile, log, record, Date_now,
    require_edgeTTS, bind, ret, throw, respond, with_files in *;
  cbn [files clock edgeTTS console invoked fst snd] in *.

Ltac step := cbn [files clock edgeTTS console invoked fst snd cause partial].

(** What [read_input] can do: take the inline text and leave the world as
    it is, or take the contents of the upload and remove it. *)
Lemma read_input_inv E req w text w1 :
  read_input E req w = (Next text, w1) ->
  (file req = None /\ textInput req = Some text /\ text <> "" /\ w1 = w) \/
  (exists f, file req = Some f /\
             files w !! upload_path E f = Some text /\
             w1 = with_files (delete (upload_path E f) (files w)) w).
Proof.
  unfold read_input. destruct (file req) as [f|].
  - intros H. right. exists f. split; [reflexivity|]. run.
    destruct (files w !! upload_path E f) as [contents|] eqn:Hf; simpl in H.
    + rewrite Hf in H. simpl in H. injection H as <- <-. auto.
    + discriminate H.
  - intros H. left. destruct (textInput req) as [t|]; [|discriminate H].
    destruct (String.eqb t "") eqn:Ht; [discriminate H|].
    injection H as <- <-. apply String.eqb_neq in Ht. auto.
Qed.

(** It touches neither the clock nor the console nor the backends. *)
Lemma read_input_frame E req w text w1 :
  read_input E req w = (Next text, w1) ->
  clock w1 = clock w /\ console w1 = console w /\
  invoked w1 = invoked w /\ edgeTTS w1 = edgeTTS w.
Proof.
  intros H. apply read_input_inv in H as [(_ & _ & _ & ->)|(f & _ & _ & ->)];
    auto.
Qed.

(** Once the text is there, the rest of the [try] block runs on the world
    [read_input] left. *)
Lemma convert_after_input E req w text w1 :
  read_input E req w = (Next text, w1) ->
  convert E req w = catch (synthesize_and_reply E req text) w1.
Proof.
  intros H. unfold convert, convert_body, catch, bind. now rewrite H.
Qed.

(** Every synthesis either goes well or goes wrong, never both. *)
Lemma synthesis_decided E req text now :
  (exists audio, synthesis_gives E req text now audio) \/
  (exists f, synthesis_fails E req text now f).
Proof.
  destruct (String.eqb (engine_of req) "edge") eqn:He.
  - apply String.eqb_eq in He.
    destruct (edge_synthesize E text (or_default (voice req) "en-US-AriaNeural"))
      as [data|why] eqn:Hs.
    + destruct (disk_write E (outputPath E now) data) as [f|] eqn:Hw.
      * right. exists f. eapply edge_write_fails; eauto.
      * left. exists data. now apply edge_writes.
    + right. eexists. eapply edge_rejects; eauto.
  - apply String.eqb_neq in He.
    destruct (gtts_new E text (voiceCode_of req)) as [why|] eqn:Hn.
    + right. eexists. eapply gtts_new_fails; eauto.
    + destruct (gtts_save E text (voiceCode_of req) (outputPath E now))
        as [audio|f] eqn:Hs.
      * left. exists audio. now apply gtts_saves.
      * right. exists f. now apply gtts_save_fails.
Qed.

Lemma synthesis_exclusive E req text now audio f :
  synthesis_gives E req text now audio ->
  synthesis_fails E req text now f -> False.
Proof.
  intros [a Hne Hn Hs | a He Hs Hw] Hf; inversion Hf; subst; congruence.
Qed.

(** A synthesis that goes well: the artifact path holds the audio, the
    answer is the JSON of line 198, and nothing else changed on disk. *)
Lemma reply_when_given E req text w1 audio :
  synthesis_gives E req text (clock w1) audio ->
  exists rest,
    catch (synthesize_and_reply E req text) w1 =
      (Json 200 true ("/audio/" +:+ outputFileName (clock w1))
            (outputFileName (clock w1)),
       World (<[outputPath E (clock w1) := audio]> (files w1)) (clock w1)
             (edgeTTS w1 || String.eqb (engine_of req) "edge")
             (console w1 ++ starting E req text (clock w1) :: rest)
             (invoked w1 ++ [call_of E req text (clock w1)])).
Proof.
  intros [a Hne Hn Hs | a He Hs Hw]; unfold call_of, starting.
  - apply String.eqb_neq in Hne. eexists. run.
    unfold engine_of, voiceCode_of, outputPath in *.
    rewrite Hne. step. rewrite Hn, Hs. step.
    rewrite orb_false_r, <- !app_assoc. reflexivity.
  - apply String.eqb_eq in He. eexists. run.
    unfold engine_of, voiceCode_of, outputPath in *.
    rewrite He. step. rewrite Hs. step. rewrite Hw. step.
    rewrite orb_true_r, <- !app_assoc. reflexivity.
Qed.

(** A synthesis that goes wrong: the answer is the fixed 500 page, the
    error goes to the console, and the disk keeps what the failed write
    left. *)
Lemma reply_when_failed E req text w1 f :
  synthesis_fails E req text (clock w1) f ->
  exists rest,
    catch (synthesize_and_reply E req text) w1 =
      (error_response,
       World (left_behind (outputPath E (clock w1)) f (files w1)) (clock w1)
             (edgeTTS w1 || String.eqb (engine_of req) "edge")
             (console w1 ++ starting E req text (clock w1) :: rest
                ++ [LogConversionError (cause f)])
             (invoked w1 ++ [call_of E req text (clock w1)])).
Proof.
  intros [why Hne Hn | f' Hne Hn Hs | why He Hs | data f' He Hs Hw];
    unfold call_of, left_behind, starting.
  - apply String.eqb_neq in Hne. exists [].
    run. unfold engine_of, voiceCode_of, outputPath in *.
    rewrite Hne. step. rewrite Hn. step.
    rewrite orb_false_r, <- !app_assoc. reflexivity.
  - apply String.eqb_neq in Hne. exists [LogGttsSaveError (cause f')].
    run. unfold engine_of, voiceCode_of, outputPath in *.
    rewrite Hne. step. rewrite Hn, Hs. step.
    destruct (partial f'); step;
      rewrite orb_false_r, <- !app_assoc; reflexivity.
  - apply String.eqb_eq in He.
    exists [LogUsingEdge (or_default (voice req) "en-US-AriaNeural")].
    run. unfold engine_of, voiceCode_of, outputPath in *.
    rewrite He. step. rewrite Hs. step.
    rewrite orb_true_r, <- !app_assoc. reflexivity.
  - apply String.eqb_eq in He.
    exists [LogUsingEdge (or_default (voice req) "en-US-AriaNeural")].
    run. unfold engine_of, voiceCode_of, outputPath in *.
    rewrite He. step. rewrite Hs. step. rewrite Hw. step.
    destruct (partial f'); step;
      rewrite orb_true_r, <- !app_assoc; reflexivity.
Qed.



(** ** Claims *)

(** [read_input] creates no file. *)
Lemma read_input_dom E req w text w1 :
  read_input E req w = (Next text, w1) -> dom (files w1) ⊆ dom (files w).
Proof.
  intros H. apply read_input_inv in H as [(_ & _ & _ & ->)|(f & _ & _ & ->)].
  - reflexivity.
  - unfold with_files. cbn [files]. rewrite dom_delete_L.
    now apply subseteq_difference_l.
Qed.

(** Writing one path on top of a world that lost at most some files. *)
Lemma created_by_put (fs fs1 : gmap string string) (p data : string) :
  dom fs1 ⊆ dom fs ->
  dom (<[p := data]> fs1) ∖ dom fs = {[p]} ∖ dom fs.
Proof.
  intros H. rewrite dom_insert_L. apply set_eq. intros x.
  rewrite !elem_of_difference, elem_of_union. split.
  - intros [[Hx|Hx] Hn]; [auto | exfalso; apply Hn, H, Hx].
  - intros [Hx Hn]. auto.
Qed.

(** C1, as amended.  When the text is available, the engine is not Edge and
    GTTS saves [audio], [convert] answers 200 with [fileName] equal to
    [speech-<Date.now()>.mp3] and [url] equal to ["/audio/"] followed by
    [fileName]; the file of that name in the audio directory holds the
    audio and no other path is written.  That file is a new one exactly
    when the name was free: a name already taken is overwritten and no new
    file appears. *)
Theorem C1_gtts_writes_the_artifact E req w text w1 audio :
  read_input E req w = (Next text, w1) ->
  engine_of req ≠ "edge" ->
  gtts_new E text (voiceCode_of req) = None ->
  gtts_save E text (voiceCode_of req) (outputPath E (clock w)) = Saved audio ->
  let fileName := outputFileName (clock w) in
  let artifact := path_join (audioDir E) fileName in
  let w' := snd (convert E req w) in
  fileName = "speech-" +:+ pretty (clock w) +:+ ".mp3" /\
  fst (convert E req w) = Json 200 true ("/audio/" +:+ fileName) fileName /\
  files w' = <[artifact := audio]> (files w1) /\
  (files w !! artifact = None -> created w w' = {[artifact]}) /\
  (is_Some (files w !! artifact) -> created w w' = ∅).
Proof.
  intros Hin Hne Hn Hs fileName artifact w'. subst w'.
  rewrite (convert_after_input _ _ _ _ _ Hin).
  destruct (read_input_frame _ _ _ _ _ Hin) as (Hc & _).
  assert (Hg : synthesis_gives E req text (clock w1) audio)
    by (rewrite Hc; now apply gtts_saves).
  destruct (reply_when_given _ _ _ _ _ Hg) as [rest ->].
  cbn [fst snd files]. rewrite Hc. fold fileName.
  change (outputPath E (clock w)) with artifact.
  split; [reflexivity|]. split; [reflexivity|]. split; [reflexivity|].
  unfold created. cbn [files].
  rewrite (created_by_put _ _ _ _ (read_input_dom _ _ _ _ _ Hin)).
  split.
  - intros Hfree. apply not_elem_of_dom in Hfree. apply set_eq. intros x.
    rewrite elem_of_difference, elem_of_singleton.
    split; [tauto | intros ->; auto].
  - intros Htaken. apply elem_of_dom in Htaken. apply set_eq. intros x.
    rewrite elem_of_difference, elem_of_singleton, elem_of_empty.
    split; [intros [-> Hnot]; contradiction | contradiction].
Qed.

Lemma C1_witness :
  fst (convert Examples.backend Examples.hello Examples.idle) =
    Json 200 true "/audio/speech-1700000000000.mp3" "speech-1700000000000.mp3" /\
  files (snd (convert Examples.backend Examples.hello Examples.idle)) =
    <[Examples.artifact := "ID3-gtts"]> ∅ /\
  created Examples.idle (snd (convert Examples.backend Examples.hello Examples.idle)) =
    {[Examples.artifact]}.
Proof.
  destruct (C1_gtts_writes_the_artifact Examples.backend Examples.hello
              Examples.idle "Hello world" Examples.idle "ID3-gtts")
    as (_ & Hr & Hf & Hnew & _).
  - reflexivity.
  - vm_compute. discriminate.
  - reflexivity.
  - reflexivity.
  - split; [exact Hr|]. split; [exact Hf|]. apply Hnew. reflexivity.
Defined.

(** C1 as stated fails when the name is taken: the conversion succeeds and
    yet no new file appears in the audio directory, the older artifact is
    overwritten. *)
Lemma C1_counterexample :
  read_input Examples.backend Examples.hello Examples.taken
    = (Next "Hello world", Examples.taken) /\
  fst (convert Examples.backend Examples.hello Examples.taken) =
    Json 200 true "/audio/speech-1700000000000.mp3" "speech-1700000000000.mp3" /\
  created Examples.taken
    (snd (convert Examples.backend Examples.hello Examples.taken)) = ∅ /\
  files (snd (convert Examples.backend Examples.hello Examples.taken))
    !! Examples.artifact = Some "ID3-gtts".
Proof. vm_compute. repeat split; reflexivity. Qed.

(** Once the text is there, the answer is the JSON of a success or the
    fixed 500 page, never the 400 page. *)
Lemma reply_is_200_or_500 E req text w1 :
  fst (catch (synthesize_and_reply E req text) w1) =
    Json 200 true ("/audio/" +:+ outputFileName (clock w1))
         (outputFileName (clock w1)) \/
  fst (catch (synthesize_and_reply E req text) w1) = error_response.
Proof.
  destruct (synthesis_decided E req text (clock w1)) as [[audio Hg]|[f Hf]].
  - destruct (reply_when_given _ _ _ _ _ Hg) as [rest ->]. now left.
  - destruct (reply_when_failed _ _ _ _ _ Hf) as [rest ->]. now right.
Qed.

(** C2, as amended.  A request without an upload is answered 400 "No text
    or file provided", with no file written and nothing else done, exactly
    when its [textInput] field is absent or the empty string.  The field is
    not trimmed: a text of white space only is converted like any other. *)
Theorem C2_no_input_is_rejected E req w :
  file req = None ->
  (field_truthy (textInput req) = false ->
     convert E req w = (no_input_response, w)) /\
  (fst (convert E req w) = no_input_response <->
     field_truthy (textInput req) = false).
Proof.
  intros Hfile.
  assert (Hfalsy : field_truthy (textInput req) = false ->
                   convert E req w = (no_input_response, w)).
  { intros Ht. unfold convert, catch, convert_body, bind, read_input.
    rewrite Hfile. destruct (textInput req) as [t|]; [|reflexivity].
    cbn [field_truthy] in Ht. apply negb_false_iff in Ht. now rewrite Ht. }
  split; [exact Hfalsy|]. split.
  - intros Hr. destruct (field_truthy (textInput req)) eqn:Ht; [|reflexivity].
    exfalso. destruct (textInput req) as [t|] eqn:Hti; [|discriminate Ht].
    cbn [field_truthy] in Ht. apply negb_true_iff in Ht.
    assert (Hin : read_input E req w = (Next t, w)).
    { unfold read_input. now rewrite Hfile, Hti, Ht. }
    rewrite (convert_after_input _ _ _ _ _ Hin) in Hr.
    destruct (reply_is_200_or_500 E req t w) as [H|H];
      rewrite H in Hr; discriminate Hr.
  - intros Ht. now rewrite Hfalsy.
Qed.

Lemma C2_witness :
  convert Examples.backend Examples.empty Examples.idle =
    (no_input_response, Examples.idle) /\
  (fst (convert Examples.backend Examples.empty Examples.idle) = no_input_response <->
   field_truthy (textInput Examples.empty) = false).
Proof.
  destruct (C2_no_input_is_rejected Examples.backend Examples.empty Examples.idle)
    as (H1 & H2).
  - reflexivity.
  - split; [apply H1; reflexivity | exact H2].
Defined.

(** C2 as stated fails on a text of three spaces: it is empty after
    trimming and there is no upload, yet the answer is a success and an
    artifact is written. *)
Lemma C2_counterexample :
  file Examples.blank = None /\
  (exists t, textInput Examples.blank = Some t /\ trim t = "") /\
  fst (convert Examples.backend Examples.blank Examples.idle) =
    Json 200 true "/audio/speech-1700000000000.mp3" "speech-1700000000000.mp3" /\
  fst (convert Examples.backend Examples.blank Examples.idle) <> no_input_response /\
  files Examples.idle !! Examples.artifact = None /\
  files (snd (convert Examples.backend Examples.blank Examples.idle))
    !! Examples.artifact = Some "ID3-gtts".
Proof.
  split; [reflexivity|]. split; [exists "   "; split; reflexivity|].
  split; [vm_compute; reflexivity|]. split; [vm_compute; discriminate|].
  split; vm_compute; reflexivity.
Qed.

(** *** The voice tables *)

Lemma maleVoices_keys v : maleVoices !! v = None <-> v ∉ listed_keys.
Proof. unfold maleVoices. now rewrite <- not_elem_of_list_to_map. Qed.

Lemma femaleVoices_keys v : femaleVoices !! v = None <-> v ∉ listed_keys.
Proof. unfold femaleVoices. now rewrite <- not_elem_of_list_to_map. Qed.

(** The four values the specification lists. *)
Lemma voiceCode_listed_values :
  voiceCode "en" "male" = Str "en-us" /\
  voiceCode "en" "female" = Str "en" /\
  voiceCode "hi" "female" = Str "hi" /\
  voiceCode "xx" "male" = Str "xx".
Proof. vm_compute. repeat split; reflexivity. Qed.

(** Every listed key other than ["en"] maps to itself, whatever the
    gender. *)
Lemma voiceCode_listed_self v g :
  v ∈ listed_keys -> v ≠ "en" -> voiceCode v g = Str v.
Proof.
  unfold listed_keys. rewrite !elem_of_cons, elem_of_nil.
  intros H Hen. unfold voiceCode.
  destruct (String.eqb g "male"), (String.eqb g "female");
    intuition subst; try reflexivity; congruence.
Qed.

(** A name that is neither a key of the tables nor inherited from
    [Object.prototype] passes through unchanged, whatever the gender. *)
Lemma voiceCode_pass_through v g :
  v ∉ listed_keys -> v ∉ object_prototype_keys -> voiceCode v g = Str v.
Proof.
  intros Hk Hp. unfold voiceCode, get.
  rewrite (proj2 (maleVoices_keys v) Hk), (proj2 (femaleVoices_keys v) Hk).
  rewrite (bool_decide_eq_false_2 _ Hp). cbn [or_else].
  now destruct (String.eqb g "male"), (String.eqb g "female").
Qed.

(** A name inherited from [Object.prototype] is answered by the tables
    with the inherited member, and that member, being truthy, becomes the
    voice code. *)
Lemma voiceCode_inherited v g :
  v ∈ object_prototype_keys -> g = "male" \/ g = "female" ->
  voiceCode v g = Inherited v.
Proof.
  unfold object_prototype_keys. rewrite !elem_of_cons, elem_of_nil.
  intros H [-> | ->]; intuition subst; reflexivity.
Qed.

(** C3, at the failing input.  ["constructor"] is no key of the tables,
    yet the resolver does not pass it through: the lookup finds the member
    inherited from [Object.prototype], and the GTTS job is constructed with
    that member, not with the string. *)
Theorem C3_inherited_name_is_not_passed_through :
  maleVoices !! "constructor" = None /\
  voiceCode "constructor" "male" = Inherited "constructor" /\
  voiceCode "constructor" "male" <> Str "constructor" /\
  invoked (snd (convert Examples.backend
                  (Request None (Some "Hello world") (Some "gtts")
                           (Some "constructor") (Some "male"))
                  Examples.idle)) =
    [CallGtts "Hello world" (Inherited "constructor") Examples.artifact].
Proof.
  split; [vm_compute; reflexivity|].
  split; [vm_compute; reflexivity|].
  split; [vm_compute; discriminate|].
  vm_compute; reflexivity.
Qed.

(** *** Dispatch *)



(** An absent or empty [engine] field stands for ["gtts"]. *)
Lemma engine_of_absent req :
  field_truthy (engine req) = false -> engine_of req = "gtts".
Proof.
  unfold engine_of, field_truthy, or_default.
  destruct (engine req) as [e|]; [|reflexivity].
  intros H. apply negb_false_iff in H. now rewrite H.
Qed.






(** *** Gender *)

(** C6, as amended.  An absent or empty [gender] field stands for
    ["male"], so that voice ["en"] then resolves to ["en-us"].  Any other
    value than ["male"] and ["female"] selects no table at all: the voice
    is passed on as it is, and ["en"] stays ["en"]. *)
Theorem C6_gender_default_and_other_values v g :
  (field_truthy g = false ->
     voiceCode v (or_default g "male") = voiceCode v "male") /\
  (field_truthy g = false ->
     voiceCode "en" (or_default g "male") = Str "en-us") /\
  (forall s, g = Some s -> s <> "" -> s <> "male" -> s <> "female" ->
     voiceCode v (or_default g "male") = Str v).
Proof.
  assert (Hdef : field_truthy g = false -> or_default g "male" = "male").
  { destruct g as [s|]; [|reflexivity]. cbn [field_truthy or_default].
    intros H. apply negb_false_iff in H. now rewrite H. }
  split; [|split].
  - intros H. now rewrite (Hdef H).
  - intros H. now rewrite (Hdef H).
  - intros s -> Hs Hm Hf. cbn [or_default]. unfold voiceCode.
    apply String.eqb_neq in Hs, Hm, Hf. now rewrite Hs, Hm, Hf.
Qed.

Lemma C6_witness :
  voiceCode "en" (or_default None "male") = voiceCode "en" "male" /\
  voiceCode "en" (or_default None "male") = Str "en-us" /\
  voiceCode "en" (or_default (Some "other") "male") = Str "en".
Proof.
  destruct (C6_gender_default_and_other_values "en" None) as (H1 & H2 & _).
  destruct (C6_gender_default_and_other_values "en" (Some "other")) as (_ & _ & H3).
  split; [apply H1; reflexivity|]. split; [apply H2; reflexivity|].
  apply (H3 "other"); [reflexivity | discriminate | discriminate | discriminate].
Defined.

(** C6 as stated fails on the gender ["other"]: voice ["en"] does not
    resolve as for ["male"], the GTTS job is made with ["en"]. *)
Lemma C6_counterexample :
  gender Examples.neutral = Some "other" /\
  voiceCode "en" "male" = Str "en-us" /\
  voiceCode_of Examples.neutral = Str "en" /\
  invoked (snd (convert Examples.backend Examples.neutral Examples.idle)) =
    [CallGtts "Hello world" (Str "en") Examples.artifact].
Proof. vm_compute. repeat split; reflexivity. Qed.

(** *** Failures *)

(** *** Artifacts *)

(** However [read_input] ends, it changes the disk at most by removing the
    upload. *)
Lemma read_input_files E req w s w1 :
  read_input E req w = (s, w1) ->
  files w1 = files w \/
  (exists f, file req = Some f /\
             files w1 = delete (upload_path E f) (files w)).
Proof.
  unfold read_input. destruct (file req) as [f|].
  - run. destruct (files w !! upload_path E f) as [contents|] eqn:Hf.
    + step. rewrite Hf. intros H. injection H as _ <-. right. now exists f.
    + intros H. injection H as _ <-. now left.
  - destruct (textInput req) as [t|]; [destruct (String.eqb t "")|];
      intros H; injection H as _ <-; now left.
Qed.

(** When it answers by itself, the answer is the 400 page. *)
Lemma read_input_returns E req w r w1 :
  read_input E req w = (Return r, w1) -> r = no_input_response.
Proof.
  unfold read_input. destruct (file req) as [f|].
  - run. destruct (files w !! upload_path E f) as [contents|] eqn:Hf.
    + step. rewrite Hf. discriminate.
    + discriminate.
  - destruct (textInput req) as [t|]; [destruct (String.eqb t "")|];
      intros H; try discriminate H; now injection H as <- _.
Qed.

Lemma read_input_keeps_artifacts E req w s w1 name :
  read_input E req w = (s, w1) ->
  files w1 !! path_join (audioDir E) name = files w !! path_join (audioDir E) name.
Proof.
  intros H. apply read_input_files in H as [-> | (f & _ & ->)]; [reflexivity|].
  apply lookup_delete_ne, upload_not_artifact.
Qed.

(** A successful answer comes from a synthesis that went well, and names
    the artifact made from the clock. *)
Lemma success_inv E req w url fileName w' :
  convert E req w = (Json 200 true url fileName, w') ->
  exists text w1 audio,
    read_input E req w = (Next text, w1) /\
    synthesis_gives E req text (clock w1) audio /\
    url = "/audio/" +:+ fileName /\
    fileName = outputFileName (clock w1) /\
    files w' = <[outputPath E (clock w1) := audio]> (files w1).
Proof.
  intros H. destruct (read_input E req w) as [[text|why|r] w1] eqn:Hin.
  - rewrite (convert_after_input _ _ _ _ _ Hin) in H.
    destruct (synthesis_decided E req text (clock w1)) as [[audio Hg]|[f Hf]].
    + destruct (reply_when_given _ _ _ _ _ Hg) as [rest Hr].
      rewrite Hr in H. injection H as <- <- <-.
      exists text, w1, audio. auto.
    + destruct (reply_when_failed _ _ _ _ _ Hf) as [rest Hr].
      rewrite Hr in H. discriminate H.
  - unfold convert, convert_body, catch, bind in H. rewrite Hin in H.
    discriminate H.
  - unfold convert, convert_body, catch, bind in H. rewrite Hin in H.
    apply read_input_returns in Hin. subst r. discriminate H.
Qed.

(** [convert] removes nothing from the audio directory, however it ends. *)
Lemma convert_keeps_artifacts E req w name :
  is_Some (files w !! path_join (audioDir E) name) ->
  is_Some (files (snd (convert E req w)) !! path_join (audioDir E) name).
Proof.
  intros Hold. destruct (read_input E req w) as [[text|why|r] w1] eqn:Hin.
  - rewrite (convert_after_input _ _ _ _ _ Hin).
    rewrite <- (read_input_keeps_artifacts _ _ _ _ _ name Hin) in Hold.
    destruct (synthesis_decided E req text (clock w1)) as [[audio Hg]|[f Hf]].
    + destruct (reply_when_given _ _ _ _ _ Hg) as [rest ->]. cbn [snd files].
      rewrite lookup_insert. case_decide; eauto.
    + destruct (reply_when_failed _ _ _ _ _ Hf) as [rest ->]. cbn [snd files].
      unfold left_behind. destruct (partial f); [|exact Hold].
      rewrite lookup_insert. case_decide; eauto.
  - unfold convert, convert_body, catch, bind. rewrite Hin. cbn [snd files].
    now rewrite (read_input_keeps_artifacts _ _ _ _ _ name Hin).
  - unfold convert, convert_body, catch, bind. rewrite Hin. cbn [snd].
    now rewrite (read_input_keeps_artifacts _ _ _ _ _ name Hin).
Qed.

(** The earlier handler: after a synthesis and a send that went well, the
    artifact has been removed again. *)
Lemma legacy_removes_the_artifact E req w text w1 audio :
  read_input E req w = (Next text, w1) ->
  gtts_new E text (voiceCode_of req) = None ->
  gtts_save E text (voiceCode_of req) (outputPath E (clock w)) = Saved audio ->
  send_file E (outputPath E (clock w)) = None ->
  fst (Legacy.convert E req w) = SentFile (outputPath E (clock w)) audio /\
  files (snd (Legacy.convert E req w)) !! outputPath E (clock w) = None.
Proof.
  intros Hin Hn Hs Hsend.
  destruct (read_input_frame _ _ _ _ _ Hin) as (Hc & _). rewrite <- Hc in *.
  unfold Legacy.convert, Legacy.convert_body, catch, bind. rewrite Hin.
  run. unfold voiceCode_of, outputPath in *. rewrite Hn, Hs. step.
  rewrite !(lookup_insert_eq (files w1)), Hsend. step.
  split; [reflexivity|]. apply lookup_delete_eq.
Qed.

(** *** Uploads *)





(** ** Further properties *)

(** *** File names and extensions *)

Lemma append_cons c (a b : string) : String c a +:+ b = String c (a +:+ b).
Proof. reflexivity. Qed.

Lemma list_ascii_of_string_app (a b : string) :
  list_ascii_of_string (a +:+ b) = list_ascii_of_string a ++ list_ascii_of_string b.
Proof.
  induction a as [|c a IH]; [reflexivity|].
  rewrite append_cons. cbn [list_ascii_of_string]. now rewrite IH.
Qed.

Lemma length_list_ascii_of_string (s : string) :
  length (list_ascii_of_string s) = String.length s.
Proof. induction s as [|c s IH]; cbn; [reflexivity | now rewrite IH]. Qed.

Lemma substring_whole (s : string) : String.substring 0 (String.length s) s = s.
Proof. induction s as [|c s IH]; cbn; [reflexivity | now rewrite IH]. Qed.

Lemma substring_after (a b : string) :
  String.substring (String.length a) (String.length b) (a +:+ b) = b.
Proof.
  induction a as [|c a IH]; [apply substring_whole|].
  rewrite append_cons. cbn [String.length String.substring]. exact IH.
Qed.

Section Scan.
Import Path.

(** Without a dot the scan never finds the start of an extension. *)
Lemma extname_loop_no_dot l st :
  Forall no_dot l -> startDot st = (-1)%Z ->
  startDot (extname_loop l st) = (-1)%Z.
Proof.
  intros Hl. revert st. induction Hl as [|c l Hc Hl IH]; intros st Hst.
  - exact Hst.
  - cbn [extname_loop]. destruct (Ascii.eqb c CHAR_FORWARD_SLASH).
    + destruct (matchedSlash st); cbn [negb]; [now apply IH | exact Hst].
    + unfold no_dot in Hc. rewrite Hc.
      destruct (end_ st =? -1)%Z; cbn [startDot]; rewrite Hst; cbn;
        apply IH; cbn; auto.
Qed.

(** Characters that are neither dot nor slash, met after the end of the
    extension is known and before any dot, change nothing. *)
Lemma extname_loop_skip l rest st :
  Forall no_dot l -> Forall no_slash l ->
  end_ st <> (-1)%Z -> startDot st = (-1)%Z ->
  extname_loop (l ++ rest) st = extname_loop rest st.
Proof.
  intros Hd. revert st. induction Hd as [|c l Hc Hd IH]; intros st Hs He Hst.
  - reflexivity.
  - inversion Hs as [|? ? Hc' Hs']; subst.
    cbn [app extname_loop]. unfold no_dot, no_slash in *. rewrite Hc', Hc.
    apply Z.eqb_neq in He. rewrite He, Hst. cbn.
    apply IH; [exact Hs' | now apply Z.eqb_neq | exact Hst].
Qed.

(** Once the dot is found and a character was seen before it, the scan
    keeps [startDot] and [end], and [preDotState] stays away from 0. *)
Lemma extname_loop_settled l st :
  startDot st <> (-1)%Z -> end_ st <> (-1)%Z -> matchedSlash st = false ->
  preDotState st <> 0%Z ->
  let st' := extname_loop l st in
  startDot st' = startDot st /\ end_ st' = end_ st /\ preDotState st' <> 0%Z.
Proof.
  revert st. induction l as [|c l IH]; intros st Hd He Hm Hp; [now cbn|].
  cbn [extname_loop]. destruct (Ascii.eqb c CHAR_FORWARD_SLASH).
  - rewrite Hm. cbn. auto.
  - apply Z.eqb_neq in He, Hd. rewrite He, Hd. cbn [negb].
    destruct (Ascii.eqb c CHAR_DOT).
    + destruct (preDotState st =? 1)%Z eqn:H1; cbn [negb].
      * apply IH; auto; now apply Z.eqb_neq.
      * destruct (IH (Scan (startDot st) (startPart st) (end_ st) (matchedSlash st) 1))
          as (A & B & C); cbn; auto; try (now apply Z.eqb_neq); lia.
    + destruct (IH (Scan (startDot st) (startPart st) (end_ st) (matchedSlash st) (-1)))
        as (A & B & C); cbn; auto; try (now apply Z.eqb_neq); lia.
Qed.
End Scan.

Section Extname.
Import Path.

Lemma plain_chars e :
  plain e = true ->
  Forall no_dot (list_ascii_of_string e) /\ Forall no_slash (list_ascii_of_string e).
Proof.
  induction e as [|c e IH]; cbn [plain list_ascii_of_string]; [auto|].
  intros H. apply andb_prop in H as [H He]. apply andb_prop in H as [Hs Hd].
  apply negb_true_iff in Hs, Hd. destruct (IH He). split; constructor; auto.
Qed.

Theorem extname_without_dot name :
  Forall no_dot (list_ascii_of_string name) -> extname name = "".
Proof.
  intros H. unfold extname.
  rewrite (extname_loop_no_dot (rev (list_ascii_of_string name))); [reflexivity | | reflexivity].
  now apply Forall_rev.
Qed.

(** The three steps of the scan of [stem c . e], from the right: the last
    character, the dot, and the character before the dot. *)
Lemma extname_loop_last x rest :
  no_slash x -> no_dot x ->
  extname_loop (x :: rest) (Scan (-1) 0 (-1) true 0) =
  extname_loop rest (Scan (-1) 0 (Z.of_nat (length rest) + 1) false 0).
Proof.
  unfold no_slash, no_dot. intros Hs Hd. cbn [extname_loop].
  now rewrite Hs, Hd.
Qed.

Lemma extname_loop_dot rest sp N :
  N <> (-1)%Z ->
  extname_loop (CHAR_DOT :: rest) (Scan (-1) sp N false 0) =
  extname_loop rest (Scan (Z.of_nat (length rest)) sp N false 0).
Proof.
  intros HN. apply Z.eqb_neq in HN. cbn [extname_loop].
  change (Ascii.eqb CHAR_DOT CHAR_FORWARD_SLASH) with false.
  change (Ascii.eqb CHAR_DOT CHAR_DOT) with true.
  cbn [end_]. rewrite HN. reflexivity.
Qed.

Lemma extname_loop_before_dot c rest d sp N :
  no_slash c -> N <> (-1)%Z -> d <> (-1)%Z ->
  extname_loop (c :: rest) (Scan d sp N false 0) =
  extname_loop rest
    (Scan d sp N false (if Ascii.eqb c CHAR_DOT then 1 else -1)).
Proof.
  unfold no_slash. intros Hc HN Hd. apply Z.eqb_neq in HN, Hd.
  cbn [extname_loop]. rewrite Hc. cbn [end_]. rewrite HN.
  cbn [startDot]. rewrite Hd. cbn [preDotState negb].
  now destruct (Ascii.eqb c CHAR_DOT).
Qed.

Theorem extname_of_stem_dot_ext stem c e :
  no_slash c -> plain e = true -> e <> "" ->
  extname (stem +:+ String c ("." +:+ e)) = "." +:+ e.
Proof.
  intros Hc He Hne.
  destruct (plain_chars e He) as [Hd Hs].
  apply Forall_rev in Hd, Hs.
  assert (Hlen : length (rev (list_ascii_of_string e)) = String.length e)
    by now rewrite length_rev, length_list_ascii_of_string.
  unfold extname.
  rewrite list_ascii_of_string_app. cbn [list_ascii_of_string].
  change ("." +:+ e) with (String "." e). cbn [list_ascii_of_string].
  rewrite rev_app_distr. cbn [rev]. rewrite <- !app_assoc. cbn [app].
  set (L := rev (list_ascii_of_string stem)).
  assert (HL : length L = String.length stem)
    by (subst L; now rewrite length_rev, length_list_ascii_of_string).
  destruct (rev (list_ascii_of_string e)) as [|x l'] eqn:Hrev.
  { destruct e; [congruence | discriminate Hlen]. }
  inversion Hd as [|? ? Hxd Hd']; inversion Hs as [|? ? Hxs Hs']; subst.
  cbn [app]. rewrite (extname_loop_last _ _ Hxs Hxd).
  set (N := (Z.of_nat (length (l' ++ "."%char :: c :: L)) + 1)%Z).
  assert (HN : N = Z.of_nat (String.length e + 2 + length L)).
  { subst N. rewrite length_app. cbn [length] in *. lia. }
  rewrite extname_loop_skip; [| exact Hd' | exact Hs' | cbn; lia | reflexivity].
  change "."%char with CHAR_DOT.
  rewrite extname_loop_dot by lia.
  set (d := Z.of_nat (length (c :: L))).
  rewrite (extname_loop_before_dot _ _ _ _ _ Hc) by (subst d; lia).
  set (p := if Ascii.eqb c CHAR_DOT then 1%Z else (-1)%Z).
  destruct (extname_loop_settled L (Scan d 0 N false p)) as (A & B & C);
    cbn [startDot end_ matchedSlash preDotState];
    try reflexivity; try (subst d; lia).
  { subst p. destruct (Ascii.eqb c CHAR_DOT); lia. }
  cbn [startDot end_] in A, B. rewrite A, B.
  replace (d =? -1)%Z with false by (symmetry; apply Z.eqb_neq; subst d; lia).
  replace (N =? -1)%Z with false by (symmetry; apply Z.eqb_neq; lia).
  apply Z.eqb_neq in C. rewrite C.
  replace (d =? N - 1)%Z with false.
  2:{ symmetry. apply Z.eqb_neq. subst d. rewrite HN. cbn [length].
      destruct e; [congruence|]. cbn [String.length]. lia. }
  rewrite andb_false_r. cbn [orb andb]. unfold CHAR_DOT.
  replace (Z.to_nat d) with (String.length (stem +:+ String c "")).
  2:{ subst d. cbn [length]. rewrite HL.
      rewrite <- (length_list_ascii_of_string (stem +:+ _)),
        list_ascii_of_string_app, length_app, length_list_ascii_of_string.
      cbn. lia. }
  replace (Z.to_nat (N - d)) with (String.length (String "." e)).
  2:{ subst d. rewrite HN. cbn [length String.length]. lia. }
  replace (stem +:+ String c (String "." e))
    with ((stem +:+ String c "") +:+ String "." e)
    by (now rewrite append_assoc).
  apply substring_after.
Qed.
End Extname.

(** A name that is a dot followed by a plain word has no extension. *)
Lemma extname_of_dot_file e :
  plain e = true -> Path.extname ("." +:+ e) = "".
Proof.
  intros He. destruct (plain_chars e He) as [Hd Hs].
  apply Forall_rev in Hd, Hs.
  unfold Path.extname. change ("." +:+ e) with (String "." e).
  cbn [list_ascii_of_string rev].
  destruct (rev (list_ascii_of_string e)) as [|x l'] eqn:Hrev.
  - reflexivity.
  - inversion Hd as [|? ? Hxd Hd']; inversion Hs as [|? ? Hxs Hs']; subst.
    cbn [app]. rewrite (extname_loop_last _ _ Hxs Hxd).
    rewrite extname_loop_skip; [| exact Hd' | exact Hs' | cbn; lia | reflexivity].
    change "."%char with Path.CHAR_DOT.
    rewrite extname_loop_dot by lia.
    cbn [Path.extname_loop Path.startDot Path.end_ Path.preDotState].
    change (0 =? 0)%Z with true. now rewrite orb_true_r.
Qed.

Lemma lower_keeps_plain e : plain (toLowerCase e) = true -> plain e = true.
Proof.
  induction e as [|c e IH]; [reflexivity|].
  cbn [toLowerCase plain]. intros H.
  apply andb_prop in H as [H He]. apply andb_prop in H as [Hs Hd].
  rewrite (IH He), andb_true_r.
  apply negb_true_iff in Hs, Hd. apply andb_true_intro. split; apply negb_true_iff.
  - destruct (Ascii.eqb_spec c Path.CHAR_FORWARD_SLASH) as [->|]; [|reflexivity].
    discriminate Hs.
  - destruct (Ascii.eqb_spec c Path.CHAR_DOT) as [->|]; [|reflexivity].
    discriminate Hd.
Qed.

Lemma toLowerCase_dot e : toLowerCase ("." +:+ e) = "." +:+ toLowerCase e.
Proof. reflexivity. Qed.

(** The extension, in lower case, of a name [stem c . e]. *)
Lemma lower_extname_of_stem_dot_ext stem c e word :
  no_slash c -> toLowerCase e = word -> plain word = true -> word <> "" ->
  toLowerCase (Path.extname (stem +:+ String c ("." +:+ e))) = "." +:+ word.
Proof.
  intros Hc <- Hp Hne.
  rewrite extname_of_stem_dot_ext; [apply toLowerCase_dot | exact Hc | |].
  - now apply lower_keeps_plain.
  - intros ->. now apply Hne.
Qed.

(** X1.  A file name made of anything, a character other than the slash, a
    dot and the letters [txt] in any letter case is accepted by the filter
    of [/convert] and rejected by the filter of [/stt/upload]; with one of
    the five audio extensions, in any letter case, it is the other way
    round. *)
Theorem filters_accept_by_extension stem c e :
  no_slash c ->
  let name := stem +:+ String c ("." +:+ e) in
  (toLowerCase e = "txt" ->
     upload_fileFilter name = None /\
     audioUpload_fileFilter name = Some "Only audio files are allowed") /\
  ("." +:+ toLowerCase e ∈ allowed ->
     audioUpload_fileFilter name = None /\
     upload_fileFilter name = Some "Only .txt files are allowed").
Proof.
  intros Hc name. subst name. split.
  - intros He. unfold upload_fileFilter, audioUpload_fileFilter.
    rewrite (lower_extname_of_stem_dot_ext stem c e "txt" Hc He);
      [| reflexivity | discriminate].
    split; reflexivity.
  - intros He. unfold upload_fileFilter, audioUpload_fileFilter.
    assert (Hw : plain (toLowerCase e) = true /\ toLowerCase e <> "").
    { unfold allowed in He. rewrite !elem_of_cons, elem_of_nil in He.
      change ("." +:+ toLowerCase e) with (String "." (toLowerCase e)) in He.
      destruct He as [H|[H|[H|[H|[H|[]]]]]]; injection H as H; rewrite H;
        (split; [reflexivity | discriminate]). }
    destruct Hw as [Hp Hne].
    rewrite (lower_extname_of_stem_dot_ext stem c e _ Hc eq_refl Hp Hne).
    rewrite (bool_decide_eq_true_2 _ He). split; [reflexivity|].
    unfold allowed in He. rewrite !elem_of_cons, elem_of_nil in He.
    destruct He as [H|[H|[H|[H|[H|[]]]]]]; rewrite H; reflexivity.
Qed.

Lemma filters_accept_by_extension_witness :
  (upload_fileFilter "My notes.TXT" = None /\
   audioUpload_fileFilter "My notes.TXT" = Some "Only audio files are allowed") /\
  (audioUpload_fileFilter "take-1.final.WebM" = None /\
   upload_fileFilter "take-1.final.WebM" = Some "Only .txt files are allowed").
Proof.
  split.
  - apply (filters_accept_by_extension "My note" "s" "TXT"); reflexivity.
  - apply (filters_accept_by_extension "take-1.fina" "l" "WebM"); [reflexivity|].
    apply list_elem_of_In. do 4 right. left. reflexivity.
Defined.

(** X2.  No file name passes both filters; a name without any dot, and a
    name whose only dot is its first character (such as [.txt]), passes
    neither. *)
Theorem filters_reject name :
  (upload_fileFilter name = None ->
     audioUpload_fileFilter name = Some "Only audio files are allowed") /\
  (Forall no_dot (list_ascii_of_string name) \/
   (exists e, name = "." +:+ e /\ plain e = true) ->
     upload_fileFilter name = Some "Only .txt files are allowed" /\
     audioUpload_fileFilter name = Some "Only audio files are allowed").
Proof.
  split.
  - unfold upload_fileFilter, audioUpload_fileFilter.
    destruct (String.eqb_spec (toLowerCase (Path.extname name)) ".txt") as [->|];
      [reflexivity | discriminate].
  - intros H. assert (He : Path.extname name = "").
    { destruct H as [H | (e & -> & He)];
        [now apply extname_without_dot | now apply extname_of_dot_file]. }
    unfold upload_fileFilter, audioUpload_fileFilter. rewrite He.
    split; reflexivity.
Qed.

Lemma filters_reject_witness :
  (upload_fileFilter "README" = Some "Only .txt files are allowed" /\
   audioUpload_fileFilter "README" = Some "Only audio files are allowed") /\
  (upload_fileFilter ".txt" = Some "Only .txt files are allowed" /\
   audioUpload_fileFilter ".txt" = Some "Only audio files are allowed").
Proof.
  split.
  - apply (filters_reject "README"). left. repeat constructor.
  - apply (filters_reject ".txt"). right. exists "txt". split; reflexivity.
Defined.

(** *** More on [/convert] *)

(** X3.  The Edge path: when the text is available, the engine in lower
    case is ["edge"], the Edge client returns a buffer and the write
    succeeds, [convert] answers 200 with the url of
    [speech-<Date.now()>.mp3], that file holds exactly the buffer, and the
    Edge client is loaded from then on. *)
Theorem edge_writes_the_buffer E req w text w1 audio :
  read_input E req w = (Next text, w1) ->
  engine_of req = "edge" ->
  edge_synthesize E text (or_default (voice req) "en-US-AriaNeural") = Audio audio ->
  disk_write E (outputPath E (clock w)) audio = None ->
  let fileName := outputFileName (clock w) in
  fst (convert E req w) = Json 200 true ("/audio/" +:+ fileName) fileName /\
  files (snd (convert E req w)) = <[outputPath E (clock w) := audio]> (files w1) /\
  edgeTTS (snd (convert E req w)) = true.
Proof.
  intros Hin He Hs Hw fileName. subst fileName.
  rewrite (convert_after_input _ _ _ _ _ Hin).
  destruct (read_input_frame _ _ _ _ _ Hin) as (Hc & _). rewrite <- Hc in *.
  destruct (reply_when_given E req text w1 audio) as [rest ->];
    [now apply edge_writes|].
  cbn [fst snd files edgeTTS]. apply String.eqb_eq in He. rewrite He.
  now rewrite orb_true_r.
Qed.

Lemma edge_writes_the_buffer_witness :
  fst (convert Examples.backend Examples.edge_test Examples.idle) =
    Json 200 true ("/audio/" +:+ outputFileName 1700000000000)
         (outputFileName 1700000000000) /\
  files (snd (convert Examples.backend Examples.edge_test Examples.idle)) =
    <[outputPath Examples.backend 1700000000000 := "ID3-edge"]> ∅ /\
  edgeTTS (snd (convert Examples.backend Examples.edge_test Examples.idle)) = true.
Proof.
  apply (edge_writes_the_buffer Examples.backend Examples.edge_test Examples.idle
           "Test" Examples.idle "ID3-edge"); reflexivity.
Defined.

(** The rest of the [try] block changes the disk at the artifact path
    only. *)
Lemma reply_frame E req text w1 p :
  p <> outputPath E (clock w1) ->
  files (snd (catch (synthesize_and_reply E req text) w1)) !! p = files w1 !! p.
Proof.
  intros Hp.
  destruct (synthesis_decided E req text (clock w1)) as [[audio Hg]|[f Hf]].
  - destruct (reply_when_given _ _ _ _ _ Hg) as [rest ->]. cbn [snd files].
    now apply lookup_insert_ne.
  - destruct (reply_when_failed _ _ _ _ _ Hf) as [rest ->]. cbn [snd files].
    unfold left_behind. destruct (partial f); [|reflexivity].
    now apply lookup_insert_ne.
Qed.

(** However [read_input] ends, the clock is as before. *)
Lemma read_input_clock E req w s w1 :
  read_input E req w = (s, w1) -> clock w1 = clock w.
Proof.
  unfold read_input. destruct (file req) as [f|].
  - run. destruct (files w !! upload_path E f) as [contents|] eqn:Hf.
    + step. rewrite Hf. now intros [= _ <-].
    + now intros [= _ <-].
  - destruct (textInput req) as [t|]; [destruct (String.eqb t "")|];
      now intros [= _ <-].
Qed.

Lemma convert_frame E req w p :
  p <> outputPath E (clock w) ->
  (forall f, file req = Some f -> p <> upload_path E f) ->
  files (snd (convert E req w)) !! p = files w !! p.
Proof.
  intros Hart Hup.
  assert (Hread : forall s w1, read_input E req w = (s, w1) ->
                               files w1 !! p = files w !! p).
  { intros s w1 H. apply read_input_files in H as [-> | (f & Hf & ->)];
      [reflexivity|]. apply lookup_delete_ne. intros Heq. now apply (Hup f). }
  destruct (read_input E req w) as [[text|why|r] w1] eqn:Hin.
  - rewrite (convert_after_input _ _ _ _ _ Hin).
    rewrite reply_frame; [now apply (Hread (Next text))|].
    now rewrite (read_input_clock _ _ _ _ _ Hin).
  - unfold convert, convert_body, catch, bind. rewrite Hin. cbn [snd files].
    now apply (Hread (Throw why)).
  - unfold convert, convert_body, catch, bind. rewrite Hin. cbn [snd].
    now apply (Hread (Return r)).
Qed.



(** X6.  When the upload of a request is not on disk, [convert] answers 500
    with the fixed page; it calls no backend, writes nothing, and does not
    fall back to the [textInput] field. *)
Theorem missing_upload_is_answered_500 E req w f :
  file req = Some f ->
  files w !! upload_path E f = None ->
  fst (convert E req w) = error_response /\
  files (snd (convert E req w)) = files w /\
  invoked (snd (convert E req w)) = invoked w /\
  console (snd (convert E req w)) =
    console w ++ [LogConversionError (enoent (upload_path E f))].
Proof.
  intros Hfile Hoff.
  unfold convert, convert_body, catch, bind, read_input. rewrite Hfile.
  run. rewrite Hoff. auto.
Qed.

Lemma missing_upload_is_answered_500_witness :
  fst (convert Examples.backend More.missing_upload Examples.idle) = error_response /\
  files (snd (convert Examples.backend More.missing_upload Examples.idle)) =
    files Examples.idle /\
  invoked (snd (convert Examples.backend More.missing_upload Examples.idle)) =
    invoked Examples.idle /\
  console (snd (convert Examples.backend More.missing_upload Examples.idle)) =
    console Examples.idle ++
    [LogConversionError
       (enoent (upload_path Examples.backend (Upload "1699999999999-gone.txt")))].
Proof.
  apply (missing_upload_is_answered_500 Examples.backend More.missing_upload
           Examples.idle (Upload "1699999999999-gone.txt")); reflexivity.
Defined.

(** *** Artifact names over time *)

Lemma append_inj_r (a b s : string) : a +:+ s = b +:+ s -> a = b.
Proof.
  intros H. apply (f_equal list_ascii_of_string) in H.
  rewrite !list_ascii_of_string_app in H. apply app_inv_tail in H.
  apply (f_equal string_of_list_ascii) in H.
  now rewrite !string_of_list_ascii_of_string in H.
Qed.

(** The artifact name determines the clock reading it was made from. *)
Lemma outputFileName_inj t1 t2 : outputFileName t1 = outputFileName t2 -> t1 = t2.
Proof.
  unfold outputFileName. intros H. apply String.app_inj in H.
  apply append_inj_r in H. now apply (inj pretty) in H.
Qed.

Lemma outputPath_inj E t1 t2 : outputPath E t1 = outputPath E t2 -> t1 = t2.
Proof.
  unfold outputPath. intros H. apply artifact_path_inj in H.
  now apply outputFileName_inj.
Qed.

(** The disk after a conversion that went well. *)
Lemma files_when_given E req w text w1 audio :
  read_input E req w = (Next text, w1) ->
  synthesis_gives E req text (clock w) audio ->
  fst (convert E req w) =
    Json 200 true ("/audio/" +:+ outputFileName (clock w)) (outputFileName (clock w)) /\
  files (snd (convert E req w)) = <[outputPath E (clock w) := audio]> (files w1).
Proof.
  intros Hin Hg. rewrite (convert_after_input _ _ _ _ _ Hin).
  destruct (read_input_frame _ _ _ _ _ Hin) as (Hc & _). rewrite <- Hc in *.
  now destruct (reply_when_given _ _ _ _ _ Hg) as [rest ->].
Qed.

(** X7.  Two conversions that go well, the second made when the clock
    shows another reading than at the first: the two artifacts have
    different names, and after the second conversion both are on disk,
    each with its own audio. *)
Theorem conversions_at_different_times E req1 req2 w t2 text1 w1 audio1 text2 w2 audio2 :
  read_input E req1 w = (Next text1, w1) ->
  synthesis_gives E req1 text1 (clock w) audio1 ->
  let later := at_time t2 (snd (convert E req1 w)) in
  read_input E req2 later = (Next text2, w2) ->
  synthesis_gives E req2 text2 t2 audio2 ->
  t2 <> clock w ->
  outputFileName t2 <> outputFileName (clock w) /\
  files (snd (convert E req2 later)) !! outputPath E (clock w) = Some audio1 /\
  files (snd (convert E req2 later)) !! outputPath E t2 = Some audio2.
Proof.
  intros Hin1 Hg1 later Hin2 Hg2 Hne.
  destruct (files_when_given _ _ _ _ _ _ Hin1 Hg1) as (_ & Hf1).
  destruct (files_when_given E req2 later text2 w2 audio2 Hin2 Hg2) as (_ & Hf2).
  change (clock later) with t2 in Hf2.
  split; [intros H; now apply outputFileName_inj in H|].
  rewrite Hf2. split.
  - rewrite lookup_insert_ne by (intros H; now apply outputPath_inj in H).
    change (outputPath E (clock w)) with (path_join (audioDir E) (outputFileName (clock w))).
    rewrite (read_input_keeps_artifacts _ _ _ _ _ _ Hin2).
    change (files later) with (files (snd (convert E req1 w))).
    rewrite Hf1. apply lookup_insert_eq.
  - apply lookup_insert_eq.
Qed.

Lemma conversions_at_different_times_witness :
  outputFileName 1700000000001 <> outputFileName 1700000000000 /\
  files (snd (convert Examples.backend Examples.edge_test
                (at_time 1700000000001
                   (snd (convert Examples.backend Examples.hello Examples.idle)))))
    !! outputPath Examples.backend 1700000000000 = Some "ID3-gtts" /\
  files (snd (convert Examples.backend Examples.edge_test
                (at_time 1700000000001
                   (snd (convert Examples.backend Examples.hello Examples.idle)))))
    !! outputPath Examples.backend 1700000000001 = Some "ID3-edge".
Proof.
  apply (conversions_at_different_times Examples.backend Examples.hello
           Examples.edge_test Examples.idle 1700000000001
           "Hello world" Examples.idle "ID3-gtts"
           "Test" (at_time 1700000000001
                     (snd (convert Examples.backend Examples.hello Examples.idle)))
           "ID3-edge").
  - reflexivity.
  - apply gtts_saves; [vm_compute; discriminate | reflexivity | reflexivity].
  - vm_compute. reflexivity.
  - apply edge_writes; reflexivity.
  - discriminate.
Defined.

(** *** More on the earlier handler *)

(** The earlier handler up to the send, when GTTS saves [audio]. *)
Lemma legacy_after_save E req w text w1 audio :
  read_input E req w = (Next text, w1) ->
  gtts_new E text (voiceCode_of req) = None ->
  gtts_save E text (voiceCode_of req) (outputPath E (clock w)) = Saved audio ->
  Legacy.convert E req w =
    catch (Legacy.sendFile_then_cleanup E (outputPath E (clock w)))
      (World (<[outputPath E (clock w) := audio]> (files w1)) (clock w1)
             (edgeTTS w1) (console w1)
             (invoked w1 ++ [CallGtts text (voiceCode_of req) (outputPath E (clock w))])).
Proof.
  intros Hin Hn Hs.
  destruct (read_input_frame _ _ _ _ _ Hin) as (Hc & _). rewrite <- Hc in *.
  unfold Legacy.convert, Legacy.convert_body, catch at 1, bind. rewrite Hin.
  unfold Legacy.synthesize_and_send, Legacy.gtts, bind, Date_now, record, put,
    with_files, catch.
  cbn [files clock edgeTTS console invoked].
  unfold voiceCode_of, outputPath in *. now rewrite Hn, Hs.
Qed.

(** X9.  In the earlier handler, when the audio was made and the send
    fails, the answer is 500 "Error sending audio file" and the artifact
    is not cleaned up: it stays on disk with the audio. *)
Theorem legacy_failed_send_leaves_the_artifact E req w text w1 audio why :
  read_input E req w = (Next text, w1) ->
  gtts_new E text (voiceCode_of req) = None ->
  gtts_save E text (voiceCode_of req) (outputPath E (clock w)) = Saved audio ->
  send_file E (outputPath E (clock w)) = Some why ->
  fst (Legacy.convert E req w) = Html 500 (alert_page "Error sending audio file") /\
  files (snd (Legacy.convert E req w)) = <[outputPath E (clock w) := audio]> (files w1) /\
  last (console (snd (Legacy.convert E req w))) = Some (LogSendError why).
Proof.
  intros Hin Hn Hs Hsend. rewrite (legacy_after_save _ _ _ _ _ _ Hin Hn Hs).
  unfold catch, Legacy.sendFile_then_cleanup, bind, log, ret.
  cbn [files clock edgeTTS console invoked].
  rewrite (lookup_insert_eq (files w1)), Hsend.
  cbn [fst snd files console]. split; [reflexivity|]. split; [reflexivity|].
  apply last_snoc.
Qed.

Lemma legacy_failed_send_leaves_the_artifact_witness :
  fst (Legacy.convert More.aborted Examples.hello Examples.idle) =
    Html 500 (alert_page "Error sending audio file") /\
  files (snd (Legacy.convert More.aborted Examples.hello Examples.idle)) =
    <[outputPath More.aborted (clock Examples.idle) := "ID3-gtts"]> (files Examples.idle) /\
  last (console (snd (Legacy.convert More.aborted Examples.hello Examples.idle))) =
    Some (LogSendError "Request aborted").
Proof.
  apply (legacy_failed_send_leaves_the_artifact More.aborted Examples.hello
           Examples.idle "Hello world" Examples.idle "ID3-gtts" "Request aborted");
    reflexivity.
Defined.

(** X10.  In the earlier handler, after a conversion and a send that went
    well, the disk is the one [read_input] left, without the file at the
    artifact path: nothing of the conversion remains, and a file that had
    that name before is lost with it. *)
Theorem legacy_leaves_nothing_behind E req w text w1 audio :
  read_input E req w = (Next text, w1) ->
  gtts_new E text (voiceCode_of req) = None ->
  gtts_save E text (voiceCode_of req) (outputPath E (clock w)) = Saved audio ->
  send_file E (outputPath E (clock w)) = None ->
  files (snd (Legacy.convert E req w)) = delete (outputPath E (clock w)) (files w1) /\
  (files w !! outputPath E (clock w) = None ->
   files (snd (Legacy.convert E req w)) = files w1).
Proof.
  intros Hin Hn Hs Hsend. rewrite (legacy_after_save _ _ _ _ _ _ Hin Hn Hs).
  unfold catch, Legacy.sendFile_then_cleanup, unlink, with_files.
  cbn [files clock edgeTTS console invoked].
  rewrite !(lookup_insert_eq (files w1)), Hsend.
  cbn [fst snd files].
  assert (Hdel : delete (outputPath E (clock w))
                   (<[outputPath E (clock w) := audio]> (files w1)) =
                 delete (outputPath E (clock w)) (files w1))
    by apply delete_insert_eq.
  rewrite Hdel. split; [reflexivity|].
  intros Hfree. apply delete_id.
  change (outputPath E (clock w))
    with (path_join (audioDir E) (outputFileName (clock w))).
  now rewrite (read_input_keeps_artifacts _ _ _ _ _ _ Hin).
Qed.

Lemma legacy_leaves_nothing_behind_witness :
  files (snd (Legacy.convert Examples.backend Examples.hello Examples.idle)) =
    delete (outputPath Examples.backend (clock Examples.idle)) (files Examples.idle) /\
  files (snd (Legacy.convert Examples.backend Examples.hello Examples.idle)) =
    files Examples.idle.
Proof.
  destruct (legacy_leaves_nothing_behind Examples.backend Examples.hello
              Examples.idle "Hello world" Examples.idle "ID3-gtts") as (H1 & H2);
    try reflexivity.
  split; [exact H1 | apply H2; reflexivity].
Defined.

(** X11.  The earlier handler knows GTTS only: whatever the [engine]
    field, the one backend call is a GTTS call with the resolved voice
    code.  When the job cannot be made or saved, the answer is the fixed
    500 page, nothing is sent, and the disk keeps what the failed save
    left. *)
Theorem legacy_gtts_failure E req w text w1 f :
  read_input E req w = (Next text, w1) ->
  (gtts_new E text (voiceCode_of req) = Some (cause f) /\ partial f = None) \/
  (gtts_new E text (voiceCode_of req) = None /\
   gtts_save E text (voiceCode_of req) (outputPath E (clock w)) = NotSaved f) ->
  fst (Legacy.convert E req w) = error_response /\
  files (snd (Legacy.convert E req w)) =
    left_behind (outputPath E (clock w)) f (files w1) /\
  last (console (snd (Legacy.convert E req w))) =
    Some (LogConversionError (cause f)) /\
  invoked (snd (Legacy.convert E req w)) =
    invoked w ++ [CallGtts text (voiceCode_of req) (outputPath E (clock w))].
Proof.
  intros Hin Hfail.
  destruct (read_input_frame _ _ _ _ _ Hin) as (Hc & _ & Hi & _).
  rewrite <- Hc in *. rewrite <- Hi.
  unfold Legacy.convert, Legacy.convert_body, catch, bind. rewrite Hin.
  unfold Legacy.synthesize_and_send, Legacy.gtts, bind, Date_now, record, put,
    leave, with_files, throw, ret, left_behind.
  cbn [files clock edgeTTS console invoked].
  unfold voiceCode_of, outputPath in *.
  destruct Hfail as [[Hn Hp] | [Hn Hs]].
  - rewrite Hn, Hp. cbn [fst snd files console invoked].
    split; [reflexivity|]. split; [reflexivity|]. split; [apply last_snoc | reflexivity].
  - rewrite Hn, Hs. destruct (partial f);
      cbn [fst snd files console invoked];
      (split; [reflexivity|]; split; [reflexivity|];
       split; [apply last_snoc | reflexivity]).
Qed.

Lemma legacy_gtts_failure_witness :
  fst (Legacy.convert Examples.offline Examples.edge_test Examples.idle) = error_response /\
  files (snd (Legacy.convert Examples.offline Examples.edge_test Examples.idle)) =
    left_behind (outputPath Examples.offline (clock Examples.idle))
      (Failure "getaddrinfo ENOTFOUND" (Some "")) (files Examples.idle) /\
  last (console (snd (Legacy.convert Examples.offline Examples.edge_test Examples.idle))) =
    Some (LogConversionError "getaddrinfo ENOTFOUND") /\
  invoked (snd (Legacy.convert Examples.offline Examples.edge_test Examples.idle)) =
    invoked Examples.idle ++
    [CallGtts "Test" (voiceCode_of Examples.edge_test)
       (outputPath Examples.offline (clock Examples.idle))].
Proof.
  apply (legacy_gtts_failure Examples.offline Examples.edge_test Examples.idle
           "Test" Examples.idle (Failure "getaddrinfo ENOTFOUND" (Some ""))).
  - reflexivity.
  - right. split; reflexivity.
Defined.

(** *** Transcripts *)

Section Transcripts.
Import Aux.
Variable H : host.

(** The handler past its first test. *)
Lemma stt_save_goes_on body w :
  trim (body_text body) <> "" ->
  stt_save H body w =
    caught SttSaveError "Failed to save transcript"
      (mkdir H (uploadDir (base H)) ~>
       write H (path_join (uploadDir (base H)) (transcript_name (clock w)))
               (trim (body_text body)) ~>
       pure (Stored ("/uploads/" +:+ transcript_name (clock w))
                    (transcript_name (clock w)))) w.
Proof.
  intros Hne. apply String.eqb_neq in Hne.
  unfold stt_save, caught. rewrite Hne.
  unfold and_then at 1, now. reflexivity.
Qed.

(** X12.  [/stt/save] answers 400 "No text provided", touching nothing,
    exactly when the text of the body is empty once trimmed: an absent
    body or property, a falsy value, a value that [String] renders as
    white space only.  Unlike [/convert], it trims. *)
Theorem stt_save_refuses_blank_text body w :
  (trim (body_text body) = "" ->
     stt_save H body w = (Refused 400 "No text provided", [], w)) /\
  (fst (fst (stt_save H body w)) = Refused 400 "No text provided" <->
     trim (body_text body) = "").
Proof.
  assert (Hblank : trim (body_text body) = "" ->
                   stt_save H body w = (Refused 400 "No text provided", [], w)).
  { intros Ht. unfold stt_save, caught. now rewrite Ht. }
  split; [exact Hblank|]. split; [|intros Ht; now rewrite Hblank].
  intros Hr. destruct (String.eqb_spec (trim (body_text body)) "") as [|Hne];
    [assumption|]. exfalso. revert Hr.
  rewrite (stt_save_goes_on _ _ Hne).
  unfold caught, and_then, mkdir, write, pure, raise.
  destruct (mkdir_fails H (uploadDir (base H))); [discriminate|].
  destruct (disk_write (base H) _ _); discriminate.
Qed.

(** X13.  When the trimmed text is not empty, the upload directory can be
    made and the write succeeds, [/stt/save] stores exactly the trimmed
    text in [uploads/transcript-<Date.now()>.txt], answers with that file
    name and the url ["/uploads/"] followed by it, writes nothing on the
    console and changes nothing else in the world. *)
Theorem stt_save_stores_the_trimmed_text body w :
  trim (body_text body) <> "" ->
  mkdir_fails H (uploadDir (base H)) = None ->
  disk_write (base H) (path_join (uploadDir (base H)) (transcript_name (clock w)))
             (trim (body_text body)) = None ->
  stt_save H body w =
    (Stored ("/uploads/" +:+ transcript_name (clock w)) (transcript_name (clock w)),
     [],
     with_files (<[path_join (uploadDir (base H)) (transcript_name (clock w))
                   := trim (body_text body)]> (files w)) w) /\
  files (snd (stt_save H body w))
    !! path_join (uploadDir (base H)) (transcript_name (clock w)) =
    Some (trim (body_text body)).
Proof.
  intros Hne Hm Hw. rewrite (stt_save_goes_on _ _ Hne).
  unfold caught, and_then, mkdir, write, pure. rewrite Hm, Hw.
  split; [reflexivity|]. cbn [snd]. unfold with_files. cbn [files].
  apply lookup_insert_eq.
Qed.

(** X14.  When the upload directory cannot be made, or the write fails,
    [/stt/save] answers 500 "Failed to save transcript"; the cause goes to
    the console only.  In the first case nothing is written; in the second
    the disk keeps what the failed write left. *)
Theorem stt_save_failure body w :
  trim (body_text body) <> "" ->
  (forall why, mkdir_fails H (uploadDir (base H)) = Some why ->
     stt_save H body w =
       (Refused 500 "Failed to save transcript", [SttSaveError why], w)) /\
  (forall f, mkdir_fails H (uploadDir (base H)) = None ->
     disk_write (base H) (path_join (uploadDir (base H)) (transcript_name (clock w)))
                (trim (body_text body)) = Some f ->
     stt_save H body w =
       (Refused 500 "Failed to save transcript", [SttSaveError (cause f)],
        with_files (left_behind (path_join (uploadDir (base H))
                                           (transcript_name (clock w)))
                                f (files w)) w)).
Proof.
  intros Hne. rewrite (stt_save_goes_on _ _ Hne).
  unfold caught, and_then, mkdir, write, pure, raise. split.
  - intros why Hm. now rewrite Hm.
  - intros f Hm Hw. now rewrite Hm, Hw.
Qed.

(** X15.  However it ends, [/stt/save] changes the disk at the transcript
    path only, and leaves the clock, the console of [/convert], the record
    of backend calls and the Edge client as they are; in particular it
    never touches a file of the audio directory. *)
Theorem stt_save_touches_one_path body w :
  (forall p, p <> path_join (uploadDir (base H)) (transcript_name (clock w)) ->
     files (snd (stt_save H body w)) !! p = files w !! p) /\
  (forall name,
     files (snd (stt_save H body w)) !! path_join (audioDir (base H)) name =
     files w !! path_join (audioDir (base H)) name) /\
  clock (snd (stt_save H body w)) = clock w /\
  console (snd (stt_save H body w)) = console w /\
  invoked (snd (stt_save H body w)) = invoked w /\
  edgeTTS (snd (stt_save H body w)) = edgeTTS w.
Proof.
  assert (Hframe : forall p,
            p <> path_join (uploadDir (base H)) (transcript_name (clock w)) ->
            files (snd (stt_save H body w)) !! p = files w !! p).
  { intros p Hp.
    destruct (String.eqb_spec (trim (body_text body)) "") as [Ht|Hne].
    - unfold stt_save, caught. now rewrite Ht.
    - rewrite (stt_save_goes_on _ _ Hne).
      unfold caught, and_then, mkdir, write, pure, raise, with_files, left_behind.
      destruct (mkdir_fails H (uploadDir (base H))); [reflexivity|].
      destruct (disk_write (base H) _ _) as [f|]; cbn [snd files].
      + destruct (partial f); [now apply lookup_insert_ne | reflexivity].
      + now apply lookup_insert_ne. }
  split; [exact Hframe|]. split.
  - intros name. apply Hframe. intros Heq.
    apply (upload_not_artifact (base H) (Upload (transcript_name (clock w))) name).
    now symmetry.
  - destruct (String.eqb_spec (trim (body_text body)) "") as [Ht|Hne].
    + unfold stt_save, caught. rewrite Ht. now cbn.
    + rewrite (stt_save_goes_on _ _ Hne).
      unfold caught, and_then, mkdir, write, pure, raise, with_files.
      destruct (mkdir_fails H (uploadDir (base H))); [now cbn|].
      destruct (disk_write (base H) _ _) as [f|]; now cbn.
Qed.

End Transcripts.

Lemma stt_save_refuses_blank_text_witness :
  Aux.stt_save More.host (Some (Some (Aux.FOther true "  "))) Examples.idle =
    (Aux.Refused 400 "No text provided", [], Examples.idle).
Proof.
  destruct (stt_save_refuses_blank_text More.host
              (Some (Some (Aux.FOther true "  "))) Examples.idle) as (H1 & _).
  apply H1. reflexivity.
Defined.

Lemma stt_save_stores_the_trimmed_text_witness :
  files (snd (Aux.stt_save More.host (Some (Some (Aux.FString " Good morning ")))
                Examples.idle))
    !! path_join (uploadDir (Aux.base More.host)) (transcript_name 1700000000000) =
    Some (trim (Aux.body_text (Some (Some (Aux.FString " Good morning "))))).
Proof.
  apply (stt_save_stores_the_trimmed_text More.host
           (Some (Some (Aux.FString " Good morning "))) Examples.idle).
  - vm_compute. discriminate.
  - reflexivity.
  - reflexivity.
Defined.

Lemma stt_save_failure_witness :
  Aux.stt_save More.full_disk (Some (Some (Aux.FString "Good morning"))) Examples.idle =
    (Aux.Refused 500 "Failed to save transcript",
     [Aux.SttSaveError "ENOSPC: no space left on device"],
     with_files (left_behind (path_join (uploadDir (Aux.base More.full_disk))
                                        (transcript_name (clock Examples.idle)))
                   (Failure "ENOSPC: no space left on device" (Some ""))
                   (files Examples.idle)) Examples.idle).
Proof.
  destruct (stt_save_failure More.full_disk
              (Some (Some (Aux.FString "Good morning"))) Examples.idle) as (_ & H2).
  - vm_compute. discriminate.
  - apply (H2 (Failure "ENOSPC: no space left on device" (Some ""))); reflexivity.
Defined.

Lemma stt_save_touches_one_path_witness :
  files (snd (Aux.stt_save More.host (Some (Some (Aux.FString "Good morning")))
                Examples.taken)) !! Examples.artifact = Some "older audio".
Proof.
  destruct (stt_save_touches_one_path More.host
              (Some (Some (Aux.FString "Good morning"))) Examples.taken) as (H1 & _).
  rewrite H1; [reflexivity|]. vm_compute. discriminate.
Defined.

(** *** Voices *)

(** *** Names in the upload directory *)

(** No decimal rendering of an integer starts with the letter [t]. *)
Lemma pretty_N_go_not_t x s tail :
  s <> String "t" tail -> pretty_N_go x s <> String "t" tail.
Proof.
  revert s. induction (N.lt_wf_0 x) as [x _ IH]. intros s Hs.
  assert (x = 0 \/ 0 < x)%N as [->|Hx] by lia.
  - now rewrite pretty_N_go_0.
  - rewrite pretty_N_go_step by exact Hx. apply IH.
    + now apply N.div_lt.
    + unfold pretty_N_char. repeat case_match; discriminate.
Qed.

Lemma pretty_Z_not_t (z : Z) tail : pretty z <> String "t" tail.
Proof.
  destruct z as [|p|p]; unfold pretty, pretty_Z.
  - discriminate.
  - unfold pretty, pretty_positive, pretty, pretty_N.
    case_decide; [discriminate|]. apply pretty_N_go_not_t. discriminate.
  - discriminate.
Qed.

(** X17.  The name the disk storage gives an upload,
    [<Date.now()>-<originalname>], is never the name of a transcript,
    [transcript-<Date.now()>.txt], whatever the original name and the two
    clock readings.  So a [/convert] request whose upload was stored under
    such a name leaves every transcript as it is. *)
Theorem uploads_never_take_a_transcript_name E req w n originalname t :
  storage_filename n originalname <> transcript_name t /\
  (file req = Some (Upload (storage_filename n originalname)) ->
   files (snd (convert E req w)) !! path_join (uploadDir E) (transcript_name t) =
   files w !! path_join (uploadDir E) (transcript_name t)).
Proof.
  assert (Hne : storage_filename n originalname <> transcript_name t).
  { unfold storage_filename, transcript_name. intros Heq.
    destruct (pretty n) as [|c s] eqn:Hp.
    - discriminate Heq.
    - change (String c s +:+ "-" +:+ originalname)
        with (String c (s +:+ "-" +:+ originalname)) in Heq.
      change ("transcript-" +:+ pretty t +:+ ".txt")
        with (String "t" ("ranscript-" +:+ pretty t +:+ ".txt")) in Heq.
      injection Heq as -> _. now apply pretty_Z_not_t in Hp. }
  split; [exact Hne|]. intros Hfile. apply convert_frame.
  - intros Heq.
    apply (upload_not_artifact E (Upload (transcript_name t)) (outputFileName (clock w))).
    exact Heq.
  - intros f Hf. rewrite Hfile in Hf. injection Hf as <-.
    unfold upload_path, path_join. cbn [filename]. intros Heq.
    apply String.app_inj in Heq. apply String.app_inj in Heq.
    now apply Hne.
Qed.

Lemma uploads_never_take_a_transcript_name_witness :
  storage_filename 1699999999999 "notes.txt" <> transcript_name 1699999999999 /\
  files (snd (convert Examples.backend Examples.from_file Examples.uploaded))
    !! path_join (uploadDir Examples.backend) (transcript_name 1699999999999) =
  files Examples.uploaded
    !! path_join (uploadDir Examples.backend) (transcript_name 1699999999999).
Proof.
  destruct (uploads_never_take_a_transcript_name Examples.backend Examples.from_file
              Examples.uploaded 1699999999999 "notes.txt" 1699999999999) as (H1 & H2).
  split; [exact H1 | apply H2; reflexivity].
Defined.


(** ** The handler on any parsed body: facts *)

Section AnyBody.
Import Parsed.
Import Wide.

Ltac wstep :=
  cbn [Wide.files Wide.clock Wide.edgeTTS Wide.console Wide.invoked fst snd
       cause partial].

Ltac wrun :=
  unfold Wide.convert, Wide.catch, Wide.convert_body, Wide.synthesize_and_reply,
    Wide.gtts, Wide.edge, Wide.writeFile, Wide.leave, Wide.unlink, Wide.readFile,
    Wide.log, Wide.record, Wide.Date_now, Wide.require_edgeTTS, Wide.bind,
    Wide.ret, Wide.throw, Wide.respond, Wide.pending, Wide.try_,
    Wide.with_files in *;
  wstep.

(** The upload directory and the audio directory share no path. *)
Lemma wide_upload_not_artifact (E : Wide.env) f name :
  Wide.upload_path E f <> path_join (Wide.audioDir E) name.
Proof.
  unfold Wide.upload_path, Wide.uploadDir, Wide.audioDir, path_join.
  rewrite !append_assoc. intros Heq. apply String.app_inj in Heq.
  cbv [String.append] in Heq. discriminate Heq.
Qed.

(** How [read_input] ends, and what it leaves. *)
Lemma wide_read_input_ends (E : Wide.env) req w s w1 :
  Wide.read_input E req w = (s, w1) ->
  Wide.clock w1 = Wide.clock w /\ Wide.console w1 = Wide.console w /\
  Wide.invoked w1 = Wide.invoked w /\ Wide.edgeTTS w1 = Wide.edgeTTS w /\
  (Wide.files w1 = Wide.files w \/
   exists f, Wide.file req = Some f /\
             Wide.files w1 = delete (Wide.upload_path E f) (Wide.files w)) /\
  s <> Pending /\
  (forall r, s = Return r -> r = no_input_response /\ w1 = w) /\
  (forall e, s = Throw e -> w1 = w).
Proof.
  unfold Wide.read_input. destruct (Wide.file req) as [f|].
  - wrun. destruct (Wide.files w !! Wide.upload_path E f) as [contents|] eqn:Hf.
    + wstep. rewrite Hf. intros [= <- <-]. wstep.
      do 4 (split; [reflexivity|]). split; [right; now exists f|].
      split; [discriminate|]. split; intros ? Hs; discriminate Hs.
    + intros [= <- <-]. do 4 (split; [reflexivity|]). split; [now left|].
      split; [discriminate|]. split; [intros ? Hs; discriminate Hs | reflexivity].
  - destruct (Wide.textInput req) as [v|]; [destruct (truthy v)|];
      intros [= <- <-]; do 4 (split; [reflexivity|]); (split; [now left|]);
      (split; [discriminate|]);
      (split; [intros r Hs; try discriminate Hs; now injection Hs as <-
              | intros e Hs; try discriminate Hs; reflexivity]).
Qed.

Lemma wide_convert_after_input (E : Wide.env) req w text w1 :
  Wide.read_input E req w = (Next text, w1) ->
  Wide.convert E req w = Wide.catch (Wide.synthesize_and_reply E req text) w1.
Proof.
  intros H. unfold Wide.convert, Wide.convert_body, Wide.catch, Wide.bind.
  now rewrite H.
Qed.

(** Every run that has the text ends in one of the three ways. *)
Lemma run_ends_somehow (E : Wide.env) req text now was :
  (exists remains, succeeds E req text now was remains) \/
  (exists e remains, fails E req text now was e remains) \/
  (exists remains, hangs E req text now was remains).
Proof.
  destruct (engine_word req) as [e|word] eqn:Hw.
  { right. left. exists e, None. now apply engine_not_a_string. }
  destruct (voiceCode_of req) as [e|code] eqn:Hv.
  { right. left. exists e, None. now apply voice_without_key with word. }
  destruct (String.eqb_spec word "edge") as [->|Hne].
  - assert (Hload : (was = true \/ require_fails E = None) \/
                    (was = false /\ exists why, require_fails E = Some why)).
    { destruct was; [auto|]. destruct (require_fails E) as [why|]; eauto. }
    destruct Hload as [Hload | (Hwas & why & Hreq)].
    + destruct (edge_synthesize E text (edge_voice req)) as [data|why|] eqn:Hs.
      * destruct (disk_write E (outputPath E now) data) as [f|] eqn:Hd.
        -- right. left. exists (Reported (cause f)), (partial f).
           now apply edge_write_fails with code data.
        -- left. exists (Some data). now apply edge_writes with code.
      * right. left. exists (Reported why), None. now apply edge_rejects with code.
      * right. right. exists None. now apply edge_never_settles with code.
    + right. left. exists (Reported why), None. now apply client_not_loaded with code.
  - destruct (gtts_new E text code) as [why|] eqn:Hn.
    { right. left. exists (Reported why), None.
      now apply gtts_new_fails with word code. }
    destruct (gtts_save E text code (outputPath E now)) as [[err|] remains|remains] eqn:Hs.
    + right. left. exists (Reported err), remains.
      now apply gtts_save_fails with word code.
    + left. exists remains. now apply gtts_calls_back with word code.
    + right. right. exists remains. now apply gtts_never_calls_back with word code.
Qed.

(** The rest of the [try] block once the engine word and the voice code
    are there. *)
Lemma wide_reply_dispatch (E : Wide.env) req text w1 word code :
  engine_word req = inr word -> voiceCode_of req = inr code ->
  Wide.catch (Wide.synthesize_and_reply E req text) w1 =
  Wide.catch
    (Wide.bind
       (if String.eqb word "edge"
        then Wide.edge E text (Wide.voice req) (outputPath E (Wide.clock w1))
        else Wide.gtts E text code (outputPath E (Wide.clock w1)))
       (fun _ =>
          Wide.bind (Wide.log (Returning ("/audio/" +:+ outputFileName (Wide.clock w1))))
            (fun _ => Wide.ret (Json 200 true ("/audio/" +:+ outputFileName (Wide.clock w1))
                                     (outputFileName (Wide.clock w1))))))
    (Wide.World (Wide.files w1) (Wide.clock w1) (Wide.edgeTTS w1)
       (Wide.console w1 ++
          [Starting text (or_default (Wide.voice req) "en")
             (or_default (Wide.gender req) "male") code
             (outputPath E (Wide.clock w1))])
       (Wide.invoked w1)).
Proof.
  unfold engine_word, voiceCode_of. intros Hw Hv.
  unfold Wide.synthesize_and_reply, Wide.catch, Wide.bind at 1 2 3 4, Wide.try_.
  rewrite Hw, Hv. unfold Wide.ret at 1 2, Wide.Date_now, Wide.log at 1.
  wstep. reflexivity.
Qed.
(** A run that ends well. *)
Lemma wide_ends_well (E : Wide.env) req text w1 remains :
  succeeds E req text (Wide.clock w1) (Wide.edgeTTS w1) remains ->
  exists lines c loaded,
    Wide.catch (Wide.synthesize_and_reply E req text) w1 =
      (Answered (Json 200 true ("/audio/" +:+ outputFileName (Wide.clock w1))
                      (outputFileName (Wide.clock w1))),
       Wide.World (left_at (outputPath E (Wide.clock w1)) remains (Wide.files w1))
                  (Wide.clock w1) loaded (Wide.console w1 ++ lines)
                  (Wide.invoked w1 ++ [c])).
Proof.
  intros [code data Hw Hv Hload Hs Hd | word code rem Hw Hne Hv Hn Hs].
  - rewrite (wide_reply_dispatch _ _ _ _ _ _ Hw Hv).
    change (String.eqb "edge" "edge") with true. cbv iota.
    unfold edge_voice in Hs. do 2 eexists. exists true. wrun.
    assert (Hreq : (if Wide.edgeTTS w1 then true
                    else match require_fails E with Some _ => false | None => true end)
                   = true).
    { destruct Hload as [-> | ->]; [reflexivity | now destruct (Wide.edgeTTS w1)]. }
    destruct (Wide.edgeTTS w1) eqn:Hwas.
    + wstep. rewrite Hs. wstep. rewrite Hd. wstep.
      unfold left_at. rewrite <- !app_assoc. reflexivity.
    + destruct (require_fails E) as [why|]; [discriminate Hreq|].
      wstep. rewrite Hs. wstep. rewrite Hd. wstep.
      unfold left_at. rewrite <- !app_assoc. reflexivity.
  - rewrite (wide_reply_dispatch _ _ _ _ _ _ Hw Hv).
    apply String.eqb_neq in Hne. rewrite Hne.
    do 2 eexists. exists (Wide.edgeTTS w1). wrun. rewrite Hn, Hs.
    unfold left_at. destruct rem; wstep; rewrite <- !app_assoc; reflexivity.
Qed.

(** A run that fails: the fixed page, the error on the console, the
    disk as the failed step left it, one call at most. *)
Lemma wide_ends_badly (E : Wide.env) req text w1 e remains :
  fails E req text (Wide.clock w1) (Wide.edgeTTS w1) e remains ->
  exists lines calls loaded,
    Wide.catch (Wide.synthesize_and_reply E req text) w1 =
      (Answered error_response,
       Wide.World (left_at (outputPath E (Wide.clock w1)) remains (Wide.files w1))
                  (Wide.clock w1) loaded
                  (Wide.console w1 ++ lines ++ [ConversionError e])
                  (Wide.invoked w1 ++ calls)) /\
    (calls = [] \/ exists c, calls = [c]).
Proof.
  intros [e' Hw | word e' Hw Hv | code why Hw Hv Hwas Hreq
         | code why Hw Hv Hload Hs | code data f Hw Hv Hload Hs Hd
         | word code why Hw Hne Hv Hn | word code err rem Hw Hne Hv Hn Hs].
  - exists [], [], (Wide.edgeTTS w1). split; [|now left].
    unfold engine_word in Hw.
    unfold Wide.synthesize_and_reply, Wide.catch, Wide.bind, Wide.try_.
    rewrite Hw. unfold Wide.throw, left_at. now rewrite app_nil_r.
  - exists [], [], (Wide.edgeTTS w1). split; [|now left].
    unfold engine_word, voiceCode_of in *.
    unfold Wide.synthesize_and_reply, Wide.catch, Wide.bind, Wide.try_.
    rewrite Hw, Hv. unfold Wide.ret, Wide.throw, left_at. now rewrite app_nil_r.
  - rewrite (wide_reply_dispatch _ _ _ _ _ _ Hw Hv).
    change (String.eqb "edge" "edge") with true. cbv iota.
    exists [(Starting text (or_default (Wide.voice req) "en") (or_default (Wide.gender req) "male") code (outputPath E (Wide.clock w1)))], [], false.
    split; [|now left]. wrun.
    rewrite Hwas, Hreq. wstep. unfold left_at. rewrite app_nil_r.
    rewrite <- ?app_assoc. reflexivity.
  - rewrite (wide_reply_dispatch _ _ _ _ _ _ Hw Hv).
    change (String.eqb "edge" "edge") with true. cbv iota.
    unfold edge_voice in Hs.
    exists [(Starting text (or_default (Wide.voice req) "en") (or_default (Wide.gender req) "male") code (outputPath E (Wide.clock w1)));
            UsingEdge (or_default (Wide.voice req) "en-US-AriaNeural")],
      [Edge text (or_default (Wide.voice req) "en-US-AriaNeural")], true.
    split; [|right; eauto]. wrun.
    destruct (Wide.edgeTTS w1) eqn:Hwas.
    + wstep. rewrite Hs. wstep. unfold left_at. rewrite <- ?app_assoc. reflexivity.
    + destruct Hload as [Hl | Hl]; [discriminate Hl|]. rewrite Hl.
      wstep. rewrite Hs. wstep. unfold left_at. rewrite <- ?app_assoc. reflexivity.
  - rewrite (wide_reply_dispatch _ _ _ _ _ _ Hw Hv).
    change (String.eqb "edge" "edge") with true. cbv iota.
    unfold edge_voice in Hs.
    exists [(Starting text (or_default (Wide.voice req) "en") (or_default (Wide.gender req) "male") code (outputPath E (Wide.clock w1)));
            UsingEdge (or_default (Wide.voice req) "en-US-AriaNeural")],
      [Edge text (or_default (Wide.voice req) "en-US-AriaNeural")], true.
    split; [|right; eauto]. wrun.
    destruct (Wide.edgeTTS w1) eqn:Hwas.
    + wstep. rewrite Hs. wstep. rewrite Hd. unfold left_at.
      destruct (partial f); wstep; rewrite <- ?app_assoc; reflexivity.
    + destruct Hload as [Hl | Hl]; [discriminate Hl|]. rewrite Hl.
      wstep. rewrite Hs. wstep. rewrite Hd. unfold left_at.
      destruct (partial f); wstep; rewrite <- ?app_assoc; reflexivity.
  - rewrite (wide_reply_dispatch _ _ _ _ _ _ Hw Hv).
    apply String.eqb_neq in Hne. rewrite Hne.
    exists [(Starting text (or_default (Wide.voice req) "en") (or_default (Wide.gender req) "male") code (outputPath E (Wide.clock w1)))],
      [Gtts text code (outputPath E (Wide.clock w1))], (Wide.edgeTTS w1).
    split; [|right; eauto]. wrun.
    rewrite Hn. wstep. unfold left_at. rewrite <- ?app_assoc. reflexivity.
  - rewrite (wide_reply_dispatch _ _ _ _ _ _ Hw Hv).
    apply String.eqb_neq in Hne. rewrite Hne.
    exists [(Starting text (or_default (Wide.voice req) "en") (or_default (Wide.gender req) "male") code (outputPath E (Wide.clock w1))); GttsSaveError err],
      [Gtts text code (outputPath E (Wide.clock w1))], (Wide.edgeTTS w1).
    split; [|right; eauto]. wrun.
    rewrite Hn, Hs. unfold left_at.
    destruct rem; wstep; rewrite <- ?app_assoc; reflexivity.
Qed.

(** A run that hangs: no answer. *)
Lemma wide_ends_never (E : Wide.env) req text w1 remains :
  hangs E req text (Wide.clock w1) (Wide.edgeTTS w1) remains ->
  exists lines c loaded,
    Wide.catch (Wide.synthesize_and_reply E req text) w1 =
      (Unanswered,
       Wide.World (left_at (outputPath E (Wide.clock w1)) remains (Wide.files w1))
                  (Wide.clock w1) loaded (Wide.console w1 ++ lines)
                  (Wide.invoked w1 ++ [c])).
Proof.
  intros [code Hw Hv Hload Hs | word code rem Hw Hne Hv Hn Hs].
  - rewrite (wide_reply_dispatch _ _ _ _ _ _ Hw Hv).
    change (String.eqb "edge" "edge") with true. cbv iota.
    unfold edge_voice in Hs. do 2 eexists. exists true. wrun.
    destruct (Wide.edgeTTS w1) eqn:Hwas.
    + wstep. rewrite Hs. wstep. unfold left_at. rewrite <- ?app_assoc. reflexivity.
    + destruct Hload as [Hl | Hl]; [discriminate Hl|]. rewrite Hl.
      wstep. rewrite Hs. wstep. unfold left_at. rewrite <- ?app_assoc. reflexivity.
  - rewrite (wide_reply_dispatch _ _ _ _ _ _ Hw Hv).
    apply String.eqb_neq in Hne. rewrite Hne.
    do 2 eexists. exists (Wide.edgeTTS w1). wrun. rewrite Hn, Hs.
    unfold left_at. destruct rem; wstep; rewrite <- ?app_assoc; reflexivity.
Qed.
(** Which backend is called, if any: GTTS unless the engine word is
    ["edge"], Edge with the raw voice otherwise. *)
Lemma wide_calls (E : Wide.env) req text w1 :
  exists calls,
    Wide.invoked (snd (Wide.catch (Wide.synthesize_and_reply E req text) w1)) =
      Wide.invoked w1 ++ calls /\
    (calls = [] \/
     (exists word code, engine_word req = inr word /\ word <> "edge" /\
                        calls = [Gtts text code (outputPath E (Wide.clock w1))]) \/
     (engine_word req = inr "edge" /\ calls = [Edge text (edge_voice req)])).
Proof.
  destruct (engine_word req) as [e|word] eqn:Hw.
  { exists []. split; [|now left].
    unfold engine_word in Hw.
    unfold Wide.synthesize_and_reply, Wide.catch, Wide.bind, Wide.try_.
    rewrite Hw. unfold Wide.throw. wstep. now rewrite app_nil_r. }
  destruct (voiceCode_of req) as [e|code] eqn:Hv.
  { exists []. split; [|now left].
    unfold engine_word, voiceCode_of in *.
    unfold Wide.synthesize_and_reply, Wide.catch, Wide.bind, Wide.try_.
    rewrite Hw, Hv. unfold Wide.ret, Wide.throw. wstep. now rewrite app_nil_r. }
  rewrite (wide_reply_dispatch _ _ _ _ _ _ Hw Hv).
  destruct (String.eqb_spec word "edge") as [->|Hne].
  - wrun. destruct (Wide.edgeTTS w1).
    + exists [Edge text (edge_voice req)]. split; [|right; right; auto].
      wstep. unfold edge_voice.
      destruct (edge_synthesize E text _); wstep; [|reflexivity|reflexivity].
      destruct (disk_write E _ _) as [f|]; [destruct (partial f)|]; reflexivity.
    + destruct (require_fails E).
      * exists []. split; [|now left]. wstep. now rewrite app_nil_r.
      * exists [Edge text (edge_voice req)]. split; [|right; right; auto].
        wstep. unfold edge_voice.
        destruct (edge_synthesize E text _); wstep; [|reflexivity|reflexivity].
        destruct (disk_write E _ _) as [f|]; [destruct (partial f)|]; reflexivity.
  - exists [Gtts text code (outputPath E (Wide.clock w1))].
    split; [|right; left; eauto]. wrun.
    destruct (gtts_new E text code); [reflexivity|].
    destruct (gtts_save E text code _) as [[err|] [rem|]|[rem|]]; reflexivity.
Qed.





(** What a run that has the text leaves on the disk. *)
Lemma wide_files_after (E : Wide.env) req text w1 :
  exists remains,
    Wide.files (snd (Wide.catch (Wide.synthesize_and_reply E req text) w1)) =
      left_at (outputPath E (Wide.clock w1)) remains (Wide.files w1).
Proof.
  destruct (run_ends_somehow E req text (Wide.clock w1) (Wide.edgeTTS w1))
    as [[rem H] | [(e & rem & H) | [rem H]]]; exists rem.
  - now destruct (wide_ends_well _ _ _ _ _ H) as (l & c & b & ->).
  - now destruct (wide_ends_badly _ _ _ _ _ _ H) as (l & c & b & -> & _).
  - now destruct (wide_ends_never _ _ _ _ _ H) as (l & c & b & ->).
Qed.

(** A success answer comes from a run that ends well. *)
Lemma wide_success_inv (E : Wide.env) req w code ok url fileName :
  fst (Wide.convert E req w) = Answered (Json code ok url fileName) ->
  exists text w1 remains,
    Wide.read_input E req w = (Next text, w1) /\
    succeeds E req text (Wide.clock w) (Wide.edgeTTS w) remains /\
    code = 200%Z /\ ok = true /\ fileName = outputFileName (Wide.clock w) /\
    url = "/audio/" +:+ fileName /\
    Wide.files (snd (Wide.convert E req w)) =
      left_at (outputPath E (Wide.clock w)) remains (Wide.files w1).
Proof.
  destruct (Wide.read_input E req w) as [[text|e|r|] w1] eqn:Hin.
  - destruct (wide_read_input_ends _ _ _ _ _ Hin) as (Hc & _ & _ & Hb & _).
    rewrite (wide_convert_after_input _ _ _ _ _ Hin). rewrite <- Hc, <- Hb.
    destruct (run_ends_somehow E req text (Wide.clock w1) (Wide.edgeTTS w1))
      as [[rem H] | [(e & rem & H) | [rem H]]].
    + destruct (wide_ends_well _ _ _ _ _ H) as (l & c & b & ->).
      intros [= <- <- <- <-]. exists text, w1, rem. repeat split; auto.
    + destruct (wide_ends_badly _ _ _ _ _ _ H) as (l & c & b & -> & _).
      discriminate.
    + destruct (wide_ends_never _ _ _ _ _ H) as (l & c & b & ->). discriminate.
  - unfold Wide.convert, Wide.convert_body, Wide.catch, Wide.bind. rewrite Hin.
    discriminate.
  - destruct (wide_read_input_ends _ _ _ _ _ Hin) as (_ & _ & _ & _ & _ & _ & Hr & _).
    destruct (Hr r eq_refl) as [-> _].
    unfold Wide.convert, Wide.convert_body, Wide.catch, Wide.bind. rewrite Hin.
    discriminate.
  - now destruct (wide_read_input_ends _ _ _ _ _ Hin) as (_ & _ & _ & _ & _ & Hp & _).
Qed.

(** The disk after [convert]: the upload is gone if it was read, and the
    artifact path holds what the run left there. *)
Lemma wide_convert_files (E : Wide.env) req w :
  exists remains,
    Wide.files (snd (Wide.convert E req w)) =
      left_at (outputPath E (Wide.clock w)) remains (Wide.files w) \/
    exists f, Wide.file req = Some f /\
      Wide.files (snd (Wide.convert E req w)) =
        left_at (outputPath E (Wide.clock w)) remains
                (delete (Wide.upload_path E f) (Wide.files w)).
Proof.
  destruct (Wide.read_input E req w) as [[text|e|r|] w1] eqn:Hin.
  - destruct (wide_read_input_ends _ _ _ _ _ Hin) as (Hc & _ & _ & _ & Hf & _).
    rewrite (wide_convert_after_input _ _ _ _ _ Hin).
    destruct (wide_files_after E req text w1) as [rem ->]. exists rem.
    rewrite Hc. destruct Hf as [-> | (f & Hfile & ->)]; [now left | right; eauto].
  - destruct (wide_read_input_ends _ _ _ _ _ Hin) as (_ & _ & _ & _ & _ & _ & _ & He).
    rewrite (He e eq_refl) in Hin. exists None. left.
    unfold Wide.convert, Wide.convert_body, Wide.catch, Wide.bind. now rewrite Hin.
  - destruct (wide_read_input_ends _ _ _ _ _ Hin) as (_ & _ & _ & _ & _ & _ & Hr & _).
    destruct (Hr r eq_refl) as [_ ->]. exists None. left.
    unfold Wide.convert, Wide.convert_body, Wide.catch, Wide.bind. now rewrite Hin.
  - now destruct (wide_read_input_ends _ _ _ _ _ Hin) as (_ & _ & _ & _ & _ & Hp & _).
Qed.

(** The backend calls of [convert]. *)
Lemma wide_convert_calls (E : Wide.env) req w :
  exists calls,
    Wide.invoked (snd (Wide.convert E req w)) = Wide.invoked w ++ calls /\
    (calls = [] \/ exists c, calls = [c]) /\
    (forall s w1, Wide.read_input E req w = (s, w1) ->
       (forall text, s <> Next text) -> calls = []) /\
    (forall e, engine_word req = inl e -> calls = []).
Proof.
  destruct (Wide.read_input E req w) as [[text|e|r|] w1] eqn:Hin.
  - destruct (wide_read_input_ends _ _ _ _ _ Hin) as (_ & _ & Hi & _).
    rewrite (wide_convert_after_input _ _ _ _ _ Hin).
    destruct (wide_calls E req text w1)
      as (calls & -> & [-> | [(wd & code & Hwd & _ & ->) | (Hed & ->)]]);
      rewrite Hi; eexists; (split; [reflexivity|]).
    + split; [now left|]. split; [reflexivity|reflexivity].
    + split; [right; eauto|]. split.
      * intros s w' [= <- _] Hs. now destruct (Hs text).
      * intros e He. rewrite He in Hwd. discriminate.
    + split; [right; eauto|]. split.
      * intros s w' [= <- _] Hs. now destruct (Hs text).
      * intros e He. rewrite He in Hed. discriminate.
  - destruct (wide_read_input_ends _ _ _ _ _ Hin) as (_ & _ & Hi & _).
    exists []. unfold Wide.convert, Wide.convert_body, Wide.catch, Wide.bind.
    rewrite Hin. wstep. rewrite app_nil_r. repeat split; auto.
  - destruct (wide_read_input_ends _ _ _ _ _ Hin) as (_ & _ & Hi & _).
    exists []. unfold Wide.convert, Wide.convert_body, Wide.catch, Wide.bind.
    rewrite Hin. wstep. rewrite app_nil_r. repeat split; auto.
  - now destruct (wide_read_input_ends _ _ _ _ _ Hin) as (_ & _ & _ & _ & _ & Hp & _).
Qed.

(** C7, as amended.  Once the text is there, every way the rest of the
    [try] block can fail (the engine is no string, the voice converts to
    no property name, the Edge package cannot be loaded, the GTTS job
    cannot be constructed or calls back with an error, the Edge client
    rejects, the write of the Edge buffer fails) is answered 500 with the
    fixed page [alert("Error processing your request")], never with a
    success; the error is the last line of the console and no part of the
    answer.  Nothing is rolled back: the artifact path holds whatever the
    failed step left there.  A backend that never answers leaves the
    request without an answer, which is no success either.  A success
    answer is given only when no such step fails, and every run that has
    the text ends in one of these three ways. *)
Theorem C7_failure_is_answered_500 (E : Wide.env) req w text w1 :
  Wide.read_input E req w = (Next text, w1) ->
  (forall e remains,
     fails E req text (Wide.clock w) (Wide.edgeTTS w) e remains ->
     fst (Wide.convert E req w) = Answered error_response /\
     last (Wide.console (snd (Wide.convert E req w))) = Some (ConversionError e) /\
     Wide.files (snd (Wide.convert E req w)) =
       left_at (outputPath E (Wide.clock w)) remains (Wide.files w1)) /\
  (forall remains,
     hangs E req text (Wide.clock w) (Wide.edgeTTS w) remains ->
     fst (Wide.convert E req w) = Unanswered /\
     Wide.files (snd (Wide.convert E req w)) =
       left_at (outputPath E (Wide.clock w)) remains (Wide.files w1)) /\
  (forall code ok url fileName,
     fst (Wide.convert E req w) = Answered (Json code ok url fileName) ->
     exists remains, succeeds E req text (Wide.clock w) (Wide.edgeTTS w) remains) /\
  ((exists remains, succeeds E req text (Wide.clock w) (Wide.edgeTTS w) remains) \/
   (exists e remains, fails E req text (Wide.clock w) (Wide.edgeTTS w) e remains) \/
   (exists remains, hangs E req text (Wide.clock w) (Wide.edgeTTS w) remains)).
Proof.
  intros Hin.
  destruct (wide_read_input_ends _ _ _ _ _ Hin) as (Hc & _ & _ & Hb & _).
  split; [|split; [|split; [|apply run_ends_somehow]]].
  - intros e rem H. rewrite (wide_convert_after_input _ _ _ _ _ Hin).
    rewrite <- Hc, <- Hb in H.
    destruct (wide_ends_badly _ _ _ _ _ _ H) as (l & c & b & -> & _).
    cbn [fst snd Wide.console Wide.files]. rewrite Hc.
    split; [reflexivity|]. split; [|reflexivity].
    now rewrite !app_assoc, last_snoc.
  - intros rem H. rewrite (wide_convert_after_input _ _ _ _ _ Hin).
    rewrite <- Hc, <- Hb in H.
    destruct (wide_ends_never _ _ _ _ _ H) as (l & c & b & ->).
    cbn [fst snd Wide.files]. now rewrite Hc.
  - intros code ok url fileName Hok.
    destruct (wide_success_inv _ _ _ _ _ _ _ Hok) as (t & w' & rem & Hin' & Hs & _).
    rewrite Hin in Hin'. injection Hin' as <- <-. now exists rem.
Qed.

Lemma C7_witness :
  (fst (Wide.convert Any.uninstalled Any.edge_test Any.idle) = Answered error_response /\
   last (Wide.console (snd (Wide.convert Any.uninstalled Any.edge_test Any.idle))) =
     Some (ConversionError (Reported "Cannot find module 'edge-tts'")) /\
   Wide.files (snd (Wide.convert Any.uninstalled Any.edge_test Any.idle)) = ∅) /\
  (fst (Wide.convert Any.offline Any.hello Any.idle) = Unanswered /\
   Wide.files (snd (Wide.convert Any.offline Any.hello Any.idle)) =
     <[Any.artifact := ""]> ∅).
Proof.
  split.
  - destruct (C7_failure_is_answered_500 Any.uninstalled Any.edge_test Any.idle
                (Text "Test") Any.idle) as (H & _); [reflexivity|].
    apply (H (Reported "Cannot find module 'edge-tts'") None).
    apply client_not_loaded with (Given (Text "en-US-AriaNeural")); reflexivity.
  - destruct (C7_failure_is_answered_500 Any.offline Any.hello Any.idle
                (Text "Hello world") Any.idle) as (_ & H & _); [reflexivity|].
    apply (H (Some "")).
    eapply gtts_never_calls_back with (word := "gtts");
      [reflexivity | discriminate | reflexivity | reflexivity | reflexivity].
Defined.

(** C7 as stated fails in what the answer carries: when the Edge client
    rejects with "socket hang up", the answer is the fixed page and the
    cause occurs nowhere in it; it is on the console only. *)
Lemma C7_counterexample :
  fails Any.offline Any.edge_test (Text "Test") 1700000000000 false
    (Reported "socket hang up") None /\
  fst (Wide.convert Any.offline Any.edge_test Any.idle) =
    Answered (Html 500 (alert_page "Error processing your request")) /\
  includes (alert_page "Error processing your request") "socket hang up" = false /\
  last (Wide.console (snd (Wide.convert Any.offline Any.edge_test Any.idle))) =
    Some (ConversionError (Reported "socket hang up")).
Proof.
  split.
  - apply edge_rejects with (Given (Text "en-US-AriaNeural")); auto.
  - vm_compute. repeat split; reflexivity.
Qed.

(** C8, as amended.  The handler deletes nothing in the audio directory:
    whatever the request and the answer, every file that was in the audio
    directory before the call is there after it.  When it answers a
    success, [url] is ["/audio/"] followed by [fileName], [fileName] is
    [speech-<Date.now()>.mp3], and the file of that name is what the
    backend left there: with Edge, the synthesized buffer, which the
    handler has written itself; with GTTS, what the library has written by
    the time it calls back without an error, and if it has written nothing
    the path is as it was before the call.  The handler does not look at
    the file before it answers. *)
Theorem C8_convert_never_deletes_an_artifact (E : Wide.env) req w :
  (forall name,
     is_Some (Wide.files w !! path_join (Wide.audioDir E) name) ->
     is_Some (Wide.files (snd (Wide.convert E req w))
                !! path_join (Wide.audioDir E) name)) /\
  (forall code ok url fileName,
     fst (Wide.convert E req w) = Answered (Json code ok url fileName) ->
     code = 200%Z /\ fileName = outputFileName (Wide.clock w) /\
     url = "/audio/" +:+ fileName /\
     exists text w1 remains,
       Wide.read_input E req w = (Next text, w1) /\
       succeeds E req text (Wide.clock w) (Wide.edgeTTS w) remains /\
       Wide.files (snd (Wide.convert E req w))
         !! path_join (Wide.audioDir E) fileName =
         match remains with
         | Some data => Some data
         | None => Wide.files w !! path_join (Wide.audioDir E) fileName
         end /\
       (engine_word req = inr "edge" ->
        exists data,
          remains = Some data /\
          Wide.edge_synthesize E text (edge_voice req) = Buffer data)).
Proof.
  split.
  - intros name Hin.
    destruct (wide_convert_files E req w) as [rem [-> | (f & _ & ->)]];
      unfold left_at; destruct rem as [data|]; auto.
    + destruct (decide (outputPath E (Wide.clock w) = path_join (Wide.audioDir E) name))
        as [-> | Hne].
      * rewrite lookup_insert_eq. eauto.
      * now rewrite lookup_insert_ne.
    + destruct (decide (outputPath E (Wide.clock w) = path_join (Wide.audioDir E) name))
        as [-> | Hne].
      * rewrite lookup_insert_eq. eauto.
      * rewrite lookup_insert_ne by exact Hne.
        rewrite lookup_delete_ne by apply wide_upload_not_artifact. exact Hin.
    + rewrite lookup_delete_ne by apply wide_upload_not_artifact. exact Hin.
  - intros code ok url fileName Hok.
    destruct (wide_success_inv _ _ _ _ _ _ _ Hok)
      as (text & w1 & rem & Hin & Hs & -> & -> & -> & -> & ->).
    do 3 (split; [reflexivity|]). exists text, w1, rem.
    do 2 (split; [assumption|]). split.
    + change (path_join (Wide.audioDir E) (outputFileName (Wide.clock w)))
        with (outputPath E (Wide.clock w)).
      unfold left_at. destruct rem as [data|]; [apply lookup_insert_eq|].
      destruct (wide_read_input_ends _ _ _ _ _ Hin)
        as (_ & _ & _ & _ & [-> | (f & _ & ->)] & _); [reflexivity|].
      apply lookup_delete_ne. apply wide_upload_not_artifact.
    + intros Hedge. destruct Hs as [code data Hw Hv Hload Hsyn Hd | word code rem Hw Hne].
      * eauto.
      * rewrite Hedge in Hw. injection Hw as <-. now destruct Hne.
Qed.

Lemma C8_witness :
  is_Some (Wide.files (snd (Wide.convert Any.offline Any.edge_test Any.taken))
             !! path_join (Wide.audioDir Any.offline) "speech-1700000000000.mp3") /\
  Wide.files (snd (Wide.convert Any.backend Any.hello Any.idle))
    !! path_join (Wide.audioDir Any.backend) "speech-1700000000000.mp3" =
    Some "ID3-gtts".
Proof.
  destruct (C8_convert_never_deletes_an_artifact Any.offline Any.edge_test Any.taken)
    as (H1 & _).
  destruct (C8_convert_never_deletes_an_artifact Any.backend Any.hello Any.idle)
    as (_ & H2).
  split.
  - apply H1. vm_compute. eauto.
  - destruct (H2 200%Z true "/audio/speech-1700000000000.mp3" "speech-1700000000000.mp3")
      as (_ & _ & _ & text & w1 & rem & Hin & Hs & Hf & _); [reflexivity|].
    reflexivity.
Defined.

(** C8 as stated fails on the GTTS path, where the handler answers on the
    callback alone: with a library that calls back without an error and
    without a file, as for a text that has nothing to say, the answer is a
    success and no file of the name it gives exists. *)
Lemma C8_counterexample :
  fst (Wide.convert Any.careless Any.blank Any.idle) =
    Answered (Json 200 true "/audio/speech-1700000000000.mp3"
                   "speech-1700000000000.mp3") /\
  Wide.files (snd (Wide.convert Any.careless Any.blank Any.idle))
    !! path_join (Wide.audioDir Any.careless) "speech-1700000000000.mp3" = None.
Proof. vm_compute. split; reflexivity. Qed.

(** X4.  Whatever the request and however it ends, [convert] changes the
    disk at two paths at most: the upload of the request, if it has one,
    and the artifact [speech-<Date.now()>.mp3]; every other file keeps its
    contents.  It calls one backend at most; none when the text is not
    available (400, or the upload cannot be read), and none when the
    engine is no string; exactly one when it answers a success. *)
Theorem convert_touches_two_paths (E : Wide.env) req w :
  (forall p,
     p <> outputPath E (Wide.clock w) ->
     (forall f, Wide.file req = Some f -> p <> Wide.upload_path E f) ->
     Wide.files (snd (Wide.convert E req w)) !! p = Wide.files w !! p) /\
  (exists calls,
     Wide.invoked (snd (Wide.convert E req w)) = Wide.invoked w ++ calls /\
     (calls = [] \/ exists c, calls = [c])) /\
  (forall s w1, Wide.read_input E req w = (s, w1) ->
     (forall text, s <> Next text) ->
     Wide.invoked (snd (Wide.convert E req w)) = Wide.invoked w) /\
  (forall e, engine_word req = inl e ->
     Wide.invoked (snd (Wide.convert E req w)) = Wide.invoked w) /\
  (forall code ok url fileName,
     fst (Wide.convert E req w) = Answered (Json code ok url fileName) ->
     exists c, Wide.invoked (snd (Wide.convert E req w)) = Wide.invoked w ++ [c]).
Proof.
  split; [|split; [|split; [|split]]].
  - intros p Hp Hup.
    destruct (wide_convert_files E req w) as [rem [-> | (f & Hf & ->)]];
      unfold left_at; destruct rem as [data|];
      rewrite ?lookup_insert_ne by (intros Heq; now apply Hp);
      rewrite ?lookup_delete_ne by (intros Heq; now apply (Hup f)); reflexivity.
  - destruct (wide_convert_calls E req w) as (calls & H & Hn & _). eauto.
  - intros s w1 Hin Hs.
    destruct (wide_convert_calls E req w) as (calls & -> & _ & H & _).
    rewrite (H s w1 Hin Hs). apply app_nil_r.
  - intros e He.
    destruct (wide_convert_calls E req w) as (calls & -> & _ & _ & H).
    rewrite (H e He). apply app_nil_r.
  - intros code ok url fileName Hok.
    destruct (wide_success_inv _ _ _ _ _ _ _ Hok)
      as (text & w1 & rem & Hin & Hs & _).
    destruct (wide_read_input_ends _ _ _ _ _ Hin) as (Hc & _ & Hi & Hb & _).
    rewrite (wide_convert_after_input _ _ _ _ _ Hin).
    rewrite <- Hc, <- Hb in Hs.
    destruct (wide_ends_well _ _ _ _ _ Hs) as (l & c & b & ->).
    exists c. cbn [snd Wide.invoked]. now rewrite Hi.
Qed.

Lemma convert_touches_two_paths_witness :
  Wide.files (snd (Wide.convert Any.backend Any.from_file Any.uploaded))
    !! "/srv/uploads/transcript-1.txt" = Some "kept" /\
  Wide.invoked (snd (Wide.convert Any.backend Any.empty Any.idle)) = [] /\
  Wide.invoked (snd (Wide.convert Any.backend Any.engine_twice Any.idle)) = [].
Proof.
  destruct (convert_touches_two_paths Any.backend Any.from_file Any.uploaded)
    as (H1 & _).
  destruct (convert_touches_two_paths Any.backend Any.empty Any.idle)
    as (_ & _ & H3 & _).
  destruct (convert_touches_two_paths Any.backend Any.engine_twice Any.idle)
    as (_ & _ & _ & H4 & _).
  split; [|split].
  - rewrite H1.
    + vm_compute. reflexivity.
    + vm_compute. discriminate.
    + intros f [= <-]. vm_compute. discriminate.
  - apply (H3 (Return no_input_response) Any.idle); [reflexivity | discriminate].
  - apply (H4 (NotAFunction "toLowerCase")). reflexivity.
Defined.


End AnyBody.

(** X16.  [/voices] takes the engine of the query in lower case and,
    unlike [/convert], takes an absent or empty engine for ["edge"].  An
    engine sent twice or with brackets is no string: the error is raised
    before the [try] and leaves the handler, which sends no answer.  For
    an engine other than Edge the handler answers that engine, in lower
    case, with an empty list and leaves the world as it is: the Edge
    client is neither loaded nor asked.  For Edge it loads the client if
    need be and passes the catalog on as it is; when the package cannot be
    loaded or the client fails it answers 500 "Failed to list voices" with
    the cause on the console only; when the client never answers, neither
    does the handler. *)
Theorem voices_by_engine (H : Aux.host) engine w :
  (engine = None \/ engine = Some (Parsed.Text "") ->
     Parsed.lower (Parsed.or_default engine "edge") = inr "edge" /\
     Parsed.lower (Parsed.or_default engine "gtts") = inr "gtts") /\
  (forall key, engine = Some (Parsed.Composite key) ->
     Aux.voices H engine w = (Aux.Escapes (Parsed.NotAFunction "toLowerCase"), [], w)) /\
  (forall s, engine = Some (Parsed.Text s) -> s <> "" -> Parsed.is_ascii s = true ->
     toLowerCase s <> "edge" ->
     Aux.voices H engine w = (Aux.VoiceList (toLowerCase s) [], [], w)) /\
  (Parsed.lower (Parsed.or_default engine "edge") = inr "edge" ->
     let loaded := World (files w) (clock w) true (console w) (invoked w) in
     (forall why, edgeTTS w = false -> Aux.client_missing H = Some why ->
        Aux.voices H engine w =
          (Aux.Refused 500 "Failed to list voices", [Aux.VoicesError why], w)) /\
     (edgeTTS w = true \/ Aux.client_missing H = None ->
        (forall catalog, Aux.listVoices H = Aux.Catalog catalog ->
           Aux.voices H engine w = (Aux.VoiceList "edge" catalog, [], loaded)) /\
        (forall why, Aux.listVoices H = Aux.NotListed why ->
           Aux.voices H engine w =
             (Aux.Refused 500 "Failed to list voices", [Aux.VoicesError why], loaded)) /\
        (Aux.listVoices H = Aux.NeverListed ->
           Aux.voices H engine w = (Aux.Silent, [], loaded)))).
Proof.
  split; [|split; [|split]].
  - now intros [-> | ->].
  - now intros key ->.
  - intros s -> Hs _ Hne. apply String.eqb_neq in Hs, Hne.
    unfold Aux.voices, Parsed.or_default, Parsed.truthy. rewrite Hs.
    cbn [negb Parsed.lower]. now rewrite Hne.
  - intros He loaded. unfold Aux.voices, Aux.require_client. rewrite He.
    change (String.eqb "edge" "edge") with true. cbv iota. split.
    + intros why -> ->. reflexivity.
    + intros Hload.
      assert (Hw : (if edgeTTS w
                    then (Aux.Ok tt, w)
                    else match Aux.client_missing H with
                         | Some why => (Aux.Raised why, w)
                         | None => (Aux.Ok tt, loaded)
                         end) = (Aux.Ok tt, loaded)).
      { destruct (edgeTTS w) eqn:Hb.
        - subst loaded. destruct w; cbn in *. now rewrite Hb.
        - destruct Hload as [Hl | ->]; [discriminate Hl | reflexivity]. }
      fold loaded. rewrite Hw.
      split; [|split]; [intros catalog -> | intros why -> | intros ->]; reflexivity.
Qed.

Lemma voices_by_engine_witness :
  Aux.voices More.host (Some (Parsed.Text "GTTS")) Examples.idle =
    (Aux.VoiceList "gtts" [], [], Examples.idle) /\
  Aux.voices More.host (Some (Parsed.Composite (Some "gtts,edge"))) Examples.idle =
    (Aux.Escapes (Parsed.NotAFunction "toLowerCase"), [], Examples.idle) /\
  Aux.voices More.bare None Examples.idle =
    (Aux.Refused 500 "Failed to list voices",
     [Aux.VoicesError "Cannot find module 'edge-tts'"], Examples.idle) /\
  Aux.voices More.full_disk (Some (Parsed.Text "Edge")) Examples.idle =
    (Aux.Refused 500 "Failed to list voices", [Aux.VoicesError "socket hang up"],
     World (files Examples.idle) (clock Examples.idle) true
           (console Examples.idle) (invoked Examples.idle)).
Proof.
  destruct (voices_by_engine More.host (Some (Parsed.Text "GTTS")) Examples.idle)
    as (_ & _ & H3 & _).
  destruct (voices_by_engine More.host (Some (Parsed.Composite (Some "gtts,edge")))
              Examples.idle) as (_ & H2 & _).
  destruct (voices_by_engine More.bare None Examples.idle) as (_ & _ & _ & H4).
  destruct (voices_by_engine More.full_disk (Some (Parsed.Text "Edge")) Examples.idle)
    as (_ & _ & _ & H5).
  split; [|split; [|split]].
  - apply (H3 "GTTS"); [reflexivity | discriminate | reflexivity | discriminate].
  - apply (H2 (Some "gtts,edge")). reflexivity.
  - destruct (H4 eq_refl) as (Hm & _). apply Hm; reflexivity.
  - destruct (H5 eq_refl) as (_ & Hl). destruct (Hl (or_intror eq_refl)) as (_ & Hn & _).
    apply Hn. reflexivity.
Defined.

(** ** The two handlers agree on strings *)

Lemma or_default_on_strings (o : option string) (d : string) :
  Parsed.or_default (option_map Parsed.Text o) d = Parsed.Text (or_default o d).
Proof.
  destruct o as [s|]; [|reflexivity]. cbn [option_map Parsed.or_default Parsed.truthy or_default].
  now destruct (String.eqb s "").
Qed.

Lemma voiceCode_on_strings (selectedVoice gender : string) :
  Wide.voiceCode (Parsed.Text selectedVoice) (Parsed.Text gender) =
    inr (Wide.of_value (voiceCode selectedVoice gender)) /\
  value_of (Wide.of_value (voiceCode selectedVoice gender)) =
    voiceCode selectedVoice gender.
Proof.
  unfold Wide.voiceCode, voiceCode, Wide.lookup_or_self, or_else.
  cbn [Parsed.property_key].
  destruct (String.eqb gender "male");
    [|destruct (String.eqb gender "female")];
    try (destruct (get _ selectedVoice) as [[s|name]|]; cbn [truthy];
         try destruct (negb (String.eqb s "")));
    split; reflexivity.
Qed.

Lemma read_input_on_strings (E : env) (req : request) (w : world) lines :
  Wide.read_input (widen_env E) (widen_request req) (widen_world lines w) =
    match read_input E req w with
    | (Next t, w') => (Wide.Next (Parsed.Text t), widen_world lines w')
    | (Throw why, w') => (Wide.Throw (Parsed.Reported why), widen_world lines w')
    | (Return r, w') => (Wide.Return r, widen_world lines w')
    end.
Proof.
  unfold Wide.read_input, read_input, widen_request.
  cbn [Wide.file Wide.textInput].
  destruct (file req) as [f|].
  - change (Wide.upload_path (widen_env E) f) with (upload_path E f).
    unfold Wide.bind, bind, Wide.readFile, readFile, Wide.unlink, unlink,
      Wide.ret, ret, enoent, Wide.with_files, with_files.
    unfold widen_world. cbn [Wide.files].
    destruct (files w !! upload_path E f) as [contents|] eqn:Hf; [|reflexivity].
    cbn [Wide.files files]. rewrite Hf. reflexivity.
  - destruct (textInput req) as [t|]; [|reflexivity].
    cbn [option_map Parsed.truthy]. now destruct (String.eqb t "").
Qed.

Ltac both :=
  unfold Wide.catch, catch, Wide.bind, bind, Wide.try_, Wide.ret, ret,
    Wide.Date_now, Date_now, Wide.log, log, Wide.edge, edge, Wide.gtts, gtts,
    Wide.require_edgeTTS, require_edgeTTS, Wide.record, record,
    Wide.writeFile, writeFile, Wide.leave, leave, put, Wide.throw, throw,
    Wide.with_files, with_files, widen_world;
  cbn [Wide.files Wide.clock Wide.edgeTTS Wide.console Wide.invoked
       files clock edgeTTS console invoked fst snd widen_env
       Wide.require_fails Wide.edge_synthesize Wide.disk_write
       Wide.gtts_new Wide.gtts_save text_of].

(** The rest of the [try] block of [convert] once the clock is read. *)
Lemma reply_dispatch (E : env) (req : request) (text : string) (w1 : world) :
  catch (synthesize_and_reply E req text) w1 =
  catch
    (bind
       (if String.eqb (engine_of req) "edge"
        then edge E text (voice req) (outputPath E (clock w1))
        else gtts E text (voiceCode_of req) (outputPath E (clock w1)))
       (fun _ =>
          bind (log (LogReturning ("/audio/" +:+ outputFileName (clock w1))))
            (fun _ => ret (Json 200 true ("/audio/" +:+ outputFileName (clock w1))
                                (outputFileName (clock w1))))))
    (World (files w1) (clock w1) (edgeTTS w1)
       (console w1 ++
          [LogStarting (String.length text) (or_default (voice req) "en")
             (or_default (gender req) "male") (voiceCode_of req)
             (outputPath E (clock w1))])
       (invoked w1)).
Proof. reflexivity. Qed.

Lemma reply_on_strings (E : env) (req : request) (text : string) (w1 : world) lines :
  exists lines',
    Wide.catch (Wide.synthesize_and_reply (widen_env E) (widen_request req)
                  (Parsed.Text text)) (widen_world lines w1) =
      (Wide.Answered (fst (catch (synthesize_and_reply E req text) w1)),
       widen_world lines' (snd (catch (synthesize_and_reply E req text) w1))).
Proof.
  destruct (voiceCode_on_strings (or_default (voice req) "en")
              (or_default (gender req) "male")) as [Hv Hback].
  rewrite (wide_reply_dispatch (widen_env E) (widen_request req) (Parsed.Text text)
             (widen_world lines w1) (engine_of req) (Wide.of_value (voiceCode_of req))).
  2: { unfold Wide.engine_word, widen_request. cbn [Wide.engine].
       now rewrite or_default_on_strings. }
  2: { unfold Wide.voiceCode_of, widen_request. cbn [Wide.voice Wide.gender].
       now rewrite !or_default_on_strings. }
  rewrite reply_dispatch.
  unfold widen_request. cbn [Wide.voice Wide.gender].
  change (Wide.outputPath (widen_env E)) with (outputPath E).
  destruct w1 as [fs c b l i]. unfold widen_world.
  cbn [files clock edgeTTS console invoked Wide.clock].
  destruct (String.eqb (engine_of req) "edge").
  - unfold Wide.edge, edge, Wide.writeFile, writeFile, Wide.leave, leave.
    rewrite !or_default_on_strings.
    cbn [widen_env Wide.edge_synthesize Wide.disk_write text_of].
    destruct b;
      (destruct (edge_synthesize E text _) as [data|why];
       [destruct (disk_write E _ data) as [f|]; [destruct (partial f)|]|]);
      both; eexists; rewrite ?map_app; reflexivity.
  - unfold Wide.gtts, gtts, Wide.leave, leave.
    cbn [widen_env Wide.gtts_new Wide.gtts_save text_of].
    fold (voiceCode_of req) in Hback. rewrite Hback.
    destruct (gtts_new E text _) as [why|];
      [|destruct (gtts_save E text _ _) as [audio|f]; [|destruct (partial f)]];
      both; eexists; rewrite ?map_app; reflexivity.
Qed.

(** On a request of strings, with backends that always answer and a
    client that loads, the general handler gives the answer of [convert]
    and leaves the same disk, clock, client and calls. *)
Lemma wide_convert_on_strings (E : env) (req : request) (w : world) lines :
  exists lines',
    Wide.convert (widen_env E) (widen_request req) (widen_world lines w) =
      (Wide.Answered (fst (convert E req w)),
       widen_world lines' (snd (convert E req w))).
Proof.
  unfold Wide.convert, Wide.convert_body, convert, convert_body.
  unfold Wide.catch at 1, catch at 1 2, Wide.bind at 1, bind at 1 2.
  rewrite read_input_on_strings.
  destruct (read_input E req w) as [[text|why|r] w1].
  - apply reply_on_strings.
  - eexists. unfold widen_world. cbn. reflexivity.
  - exists lines. reflexivity.
Qed.

(** [trim] strips white space beyond ASCII as well: a no-break space in
    front and a line separator behind. *)
Example trim_strips_any_white_space :
  trim (Js.bytes [194; 160] +:+ " hi there" +:+ Js.bytes [226; 128; 168; 10]) = "hi there".
Proof. vm_compute. reflexivity. Qed.
